(** * Layout editor (frontend/src/App.tsx): document model, line geometry,
      data binding and condition evaluation.

    The development embeds the pure part of [App.tsx]:
    - the sample record [DB_SAMPLE] and the placeholder substitution
      [injectDbPlaceholders];
    - [evaluateCondition] and [renderPreviewText] for data items;
    - the item list with [handleItemUpdate], [handleDelete], [selectedItem];
    - the line handlers [applyLineResize] and the two property editors
      (thickness input, orientation select);
    - the paper-size handler, whose reset is deferred with [setTimeout].

    Conventions.
    - A JS string is a [string] holding its UTF-8 bytes.  The braces and the
      ASCII blanks are single bytes, and UTF-8 is self-synchronising, so byte
      level search, comparison and concatenation agree with the code-unit level
      operations of JS on well-formed strings.
    - A JS number is a rational [Q] (finite, not NaN).  The geometry code only
      copies numbers, compares them and takes [Math.max] with [1]; equalities
      between stored numbers are therefore Leibniz equalities.  Where the code
      adds or subtracts numbers (the pan gesture), the two operations are
      parameters, since those of IEEE doubles round.
    - An object literal passed to [handleItemUpdate] is the ordered list of
      its property assignments; spreading it over an item applies them in
      order. *)

From Stdlib Require Import String Ascii List Bool Arith Lia.
From Stdlib Require Import NArith ZArith QArith Qminmax Lqa DecimalString.
Import ListNotations.

Open Scope string_scope.

(* ================================================================= *)
(** ** JS string primitives *)

Module JsString.

(** [s.includes(t)]: [t] occurs in [s] at some position. *)
Fixpoint includes (s t : string) : bool :=
  String.prefix t s
  || match s with
     | EmptyString => false
     | String _ s' => includes s' t
     end.

(** One-byte members of WhiteSpace and LineTerminator:
    TAB, LF, VT, FF, CR, SP. *)
Definition isSpace1 (c : ascii) : bool :=
  let n := N_of_ascii c in
  ((0x09 <=? n) && (n <=? 0x0D) || (n =? 0x20))%N.

(** Two-byte member: U+00A0 (C2 A0). *)
Definition isSpace2 (c1 c2 : ascii) : bool :=
  ((N_of_ascii c1 =? 0xC2) && (N_of_ascii c2 =? 0xA0))%N.

(** Three-byte members: U+1680 (E1 9A 80), U+2000..U+200A (E2 80 80..8A),
    U+2028, U+2029 (E2 80 A8, A9), U+202F (E2 80 AF), U+205F (E2 81 9F),
    U+3000 (E3 80 80), U+FEFF (EF BB BF). *)
Definition isSpace3 (c1 c2 c3 : ascii) : bool :=
  let n1 := N_of_ascii c1 in
  let n2 := N_of_ascii c2 in
  let n3 := N_of_ascii c3 in
  ((n1 =? 0xE1) && (n2 =? 0x9A) && (n3 =? 0x80)
   || (n1 =? 0xE2) && (n2 =? 0x80)
      && ((0x80 <=? n3) && (n3 <=? 0x8A)
          || (n3 =? 0xA8) || (n3 =? 0xA9) || (n3 =? 0xAF))
   || (n1 =? 0xE2) && (n2 =? 0x81) && (n3 =? 0x9F)
   || (n1 =? 0xE3) && (n2 =? 0x80) && (n3 =? 0x80)
   || (n1 =? 0xEF) && (n2 =? 0xBB) && (n3 =? 0xBF))%N.

(** [s.trimStart()]: drop encoded white space from the front. *)
Fixpoint trimStart (s : string) : string :=
  match s with
  | EmptyString => s
  | String c1 s1 =>
      if isSpace1 c1 then trimStart s1
      else
        match s1 with
        | EmptyString => s
        | String c2 s2 =>
            if isSpace2 c1 c2 then trimStart s2
            else
              match s2 with
              | EmptyString => s
              | String c3 s3 =>
                  if isSpace3 c1 c2 c3 then trimStart s3 else s
              end
        end
  end.

(** A string made of white space only. *)
Definition isBlank (s : string) : bool := String.eqb (trimStart s) EmptyString.

(** [s.trimEnd()]: cut at the first position from which only white space
    follows. *)
Fixpoint trimEnd (s : string) : string :=
  match s with
  | EmptyString => EmptyString
  | String c s' => if isBlank s then EmptyString else String c (trimEnd s')
  end.

(** [s.trim()]. *)
Definition trim (s : string) : string := trimEnd (trimStart s).

End JsString.

(* ================================================================= *)
(** ** The sample record *)

(** A field of [DbRecord] is a string or a number. *)
Inductive DbValue : Type :=
| VString (s : string)
| VNumber (n : Z).

(** [String(v)] on a field value.  An integer prints in decimal (JS does so
    below 10^21 in magnitude; the record holds 32). *)
Definition jsString (v : DbValue) : string :=
  match v with
  | VString s => s
  | VNumber n => NilZero.string_of_int (Z.to_int n)
  end.

(** An object literal with its own properties in insertion order. *)
Definition DbRecord : Type := list (string * DbValue).

Definition DB_SAMPLE : DbRecord :=
  [ ("名前", VString "山田 太郎");
    ("年齢", VNumber 32);
    ("性別", VString "男性");
    ("住所", VString "東京都千代田区丸の内1-1-1") ].

(** [record[key]]: [None] stands for [undefined]. *)
Fixpoint getField (record : DbRecord) (key : string) : option DbValue :=
  match record with
  | [] => None
  | (k, v) :: rest => if String.eqb k key then Some v else getField rest key
  end.

(** [Object.keys(DB_SAMPLE)]. *)
Definition dbColumns : list string := map fst DB_SAMPLE.

(** [(dbColumns as string[]).includes(value)]. *)
Definition isDbColumn (value : string) : bool :=
  existsb (String.eqb value) dbColumns.

(* ================================================================= *)
(** ** Placeholder substitution *)

Definition lbrace : ascii := "{"%char.
Definition rbrace : ascii := "}"%char.

Definition isBrace (c : ascii) : bool :=
  Ascii.eqb c lbrace || Ascii.eqb c rbrace.

(** The longest prefix matched by [[^{}]*], with what follows it. *)
Fixpoint spanKey (s : string) : string * string :=
  match s with
  | EmptyString => (EmptyString, EmptyString)
  | String c s' =>
      if isBrace c then (EmptyString, s)
      else let (key, rest) := spanKey s' in (String c key, rest)
  end.

(** One attempt of [/\{([^{}]+)\}/] anchored at the start of [s]: the captured
    group and the text after the match.  The class is greedy and excludes
    both braces, so the only candidate is the longest brace-free run. *)
Definition matchToken (s : string) : option (string * string) :=
  match s with
  | String c s' =>
      if Ascii.eqb c lbrace then
        match spanKey s' with
        | (EmptyString, _) => None
        | (rawKey, String d rest) =>
            if Ascii.eqb d rbrace then Some (rawKey, rest) else None
        | (_, EmptyString) => None
        end
      else None
  | EmptyString => None
  end.

(** The replacer callback of [injectDbPlaceholders]. *)
Definition replacer (rawKey : string) : string :=
  let key := JsString.trim rawKey in
  if isDbColumn key then
    match getField DB_SAMPLE key with
    | Some recordValue => jsString recordValue
    | None => EmptyString
    end
  else "{" ++ rawKey ++ "}".

(** [text.replace(re, f)] with the [g] flag: the leftmost match is replaced
    and the search resumes after it; a position without a match is copied.
    Every round consumes at least one byte, so [fuel] rounds suffice for a
    text of [fuel] bytes. *)
Fixpoint replaceAll (f : string -> string) (fuel : nat) (text : string)
  : string :=
  match fuel with
  | O => text
  | S fuel' =>
      match matchToken text with
      | Some (rawKey, rest) => f rawKey ++ replaceAll f fuel' rest
      | None =>
          match text with
          | EmptyString => EmptyString
          | String c text' => String c (replaceAll f fuel' text')
          end
      end
  end.

Definition injectDbPlaceholders (text : string) : string :=
  replaceAll replacer (String.length text) text.

(** The name the specification uses. *)
Definition resolvePlaceholderText : string -> string := injectDbPlaceholders.

(* ================================================================= *)
(** ** Items *)

Inductive ConditionOperator : Type := equals | notEquals | contains.

Module ConditionSetting.
Record t : Type := mk {
  enabled : bool;
  column : string;        (* keyof DbRecord | '' *)
  operator : ConditionOperator;
  value : string;
  trueText : string;
  falseText : string
}.
End ConditionSetting.

Module Align.
Inductive t : Type := left | center | right.
End Align.

Inductive Orientation : Type := horizontal | vertical.

(** [BaseItem]; the [type] tag is the constructor of [CanvasItem]. *)
Module BaseItem.
Record t : Type := mk {
  id : string;
  x : Q;
  y : Q;
  width : Q;
  height : Q
}.
End BaseItem.

Module TextItem.
Record t : Type := mk {
  base : BaseItem.t;
  text : string;
  fontSize : Q;
  bold : bool;
  align : Align.t
}.
End TextItem.

Module DataItem.
Record t : Type := mk {
  base : BaseItem.t;
  column : string;        (* keyof DbRecord | '' *)
  fontSize : Q;
  bold : bool;
  align : Align.t;
  prefix : string;
  suffix : string;
  emptyFallback : string;
  condition : ConditionSetting.t
}.
End DataItem.

Module RectangleItem.
Record t : Type := mk {
  base : BaseItem.t;
  background : string;
  borderColor : string;
  borderWidth : Q;
  borderRadius : Q
}.
End RectangleItem.

Module LineItem.
Record t : Type := mk {
  base : BaseItem.t;
  color : string;
  thickness : Q;
  orientation : Orientation
}.
End LineItem.

Inductive CanvasItem : Type :=
| Text (item : TextItem.t)
| Data (item : DataItem.t)
| Rectangle (item : RectangleItem.t)
| Line (item : LineItem.t).

Definition baseOf (item : CanvasItem) : BaseItem.t :=
  match item with
  | Text i => TextItem.base i
  | Data i => DataItem.base i
  | Rectangle i => RectangleItem.base i
  | Line i => LineItem.base i
  end.

(** [item.id]. *)
Definition itemId (item : CanvasItem) : string := BaseItem.id (baseOf item).

(* ================================================================= *)
(** ** Condition evaluation and preview text *)

(** [evaluateCondition]; [None] is the [null] result. *)
Definition evaluateCondition (dataItem : DataItem.t) : option string :=
  let condition := DataItem.condition dataItem in
  if negb (ConditionSetting.enabled condition)
     || String.eqb (ConditionSetting.column condition) EmptyString
  then None
  else
    let sourceValue :=
      match getField DB_SAMPLE (ConditionSetting.column condition) with
      | Some v => jsString v
      | None => EmptyString
      end in
    let target := ConditionSetting.value condition in
    let matched :=
      match ConditionSetting.operator condition with
      | equals => String.eqb sourceValue target
      | notEquals => negb (String.eqb sourceValue target)
      | contains => JsString.includes sourceValue target
      end in
    Some (if matched then ConditionSetting.trueText condition
          else ConditionSetting.falseText condition).

(** [renderPreviewText]. *)
Definition renderPreviewText (item : DataItem.t) : string :=
  let value :=
    if String.eqb (DataItem.column item) EmptyString then None
    else getField DB_SAMPLE (DataItem.column item) in
  let evaluated := evaluateCondition item in
  match evaluated with
  | Some (String c e) => String c e
  | _ =>
      match value with
      | None => DataItem.emptyFallback item
      | Some (VString EmptyString) => DataItem.emptyFallback item
      | Some v => DataItem.prefix item ++ jsString v ++ DataItem.suffix item
      end
  end.

(** The name the specification uses. *)
Definition renderDataItem : DataItem.t -> string := renderPreviewText.

(* ================================================================= *)
(** ** Update payloads *)

(** One property assignment of an object literal handed to
    [handleItemUpdate].  No call site assigns [id] or [type]. *)
Inductive Field : Type :=
| F_x (v : Q)
| F_y (v : Q)
| F_width (v : Q)
| F_height (v : Q)
| F_text (v : string)
| F_fontSize (v : Q)
| F_bold (v : bool)
| F_align (v : Align.t)
| F_column (v : string)
| F_prefix (v : string)
| F_suffix (v : string)
| F_emptyFallback (v : string)
| F_condition (v : ConditionSetting.t)
| F_background (v : string)
| F_borderColor (v : string)
| F_borderWidth (v : Q)
| F_borderRadius (v : Q)
| F_color (v : string)
| F_thickness (v : Q)
| F_orientation (v : Orientation).

(** The object literal: assignments in source order, a later one of the same
    key overriding an earlier one. *)
Definition Payload : Type := list Field.

Definition setBase (f : Field) (b : BaseItem.t) : BaseItem.t :=
  let (i, bx, by_, bw, bh) := b in
  match f with
  | F_x v => BaseItem.mk i v by_ bw bh
  | F_y v => BaseItem.mk i bx v bw bh
  | F_width v => BaseItem.mk i bx by_ v bh
  | F_height v => BaseItem.mk i bx by_ bw v
  | _ => b
  end.

Definition setText (f : Field) (it : TextItem.t) : TextItem.t :=
  let (b, t, fs, bo, al) := it in
  match f with
  | F_text v => TextItem.mk b v fs bo al
  | F_fontSize v => TextItem.mk b t v bo al
  | F_bold v => TextItem.mk b t fs v al
  | F_align v => TextItem.mk b t fs bo v
  | _ => TextItem.mk (setBase f b) t fs bo al
  end.

Definition setData (f : Field) (it : DataItem.t) : DataItem.t :=
  let (b, co, fs, bo, al, pre, suf, ef, cond) := it in
  match f with
  | F_column v => DataItem.mk b v fs bo al pre suf ef cond
  | F_fontSize v => DataItem.mk b co v bo al pre suf ef cond
  | F_bold v => DataItem.mk b co fs v al pre suf ef cond
  | F_align v => DataItem.mk b co fs bo v pre suf ef cond
  | F_prefix v => DataItem.mk b co fs bo al v suf ef cond
  | F_suffix v => DataItem.mk b co fs bo al pre v ef cond
  | F_emptyFallback v => DataItem.mk b co fs bo al pre suf v cond
  | F_condition v => DataItem.mk b co fs bo al pre suf ef v
  | _ => DataItem.mk (setBase f b) co fs bo al pre suf ef cond
  end.

Definition setRectangle (f : Field) (it : RectangleItem.t)
  : RectangleItem.t :=
  let (b, bg, bc, bw, br) := it in
  match f with
  | F_background v => RectangleItem.mk b v bc bw br
  | F_borderColor v => RectangleItem.mk b bg v bw br
  | F_borderWidth v => RectangleItem.mk b bg bc v br
  | F_borderRadius v => RectangleItem.mk b bg bc bw v
  | _ => RectangleItem.mk (setBase f b) bg bc bw br
  end.

Definition setLine (f : Field) (it : LineItem.t) : LineItem.t :=
  let (b, co, th, ori) := it in
  match f with
  | F_color v => LineItem.mk b v th ori
  | F_thickness v => LineItem.mk b co v ori
  | F_orientation v => LineItem.mk b co th v
  | _ => LineItem.mk (setBase f b) co th ori
  end.

(** One assignment written over an item.  Only the properties of the item's
    own variant are kept in the typed item; a property of another variant
    would be stored on the JS object and never read. *)
Definition setField (it : CanvasItem) (f : Field) : CanvasItem :=
  match it with
  | Text i => Text (setText f i)
  | Data i => Data (setData f i)
  | Rectangle i => Rectangle (setRectangle f i)
  | Line i => Line (setLine f i)
  end.

(** [{ ...item, ...payload }]. *)
Definition merge (item : CanvasItem) (payload : Payload) : CanvasItem :=
  fold_left setField payload item.

(** The same spread on an item known to be a line. *)
Definition mergeLine (item : LineItem.t) (payload : Payload) : LineItem.t :=
  fold_left (fun it f => setLine f it) payload item.

(* ================================================================= *)
(** ** Application state and the handlers of [App] *)

Inductive PaperSizeKey : Type := A4 | A4Landscape | Letter.
Inductive Mode : Type := edit | preview.
Inductive CanvasItemType : Type := text_t | data_t | rectangle_t | line_t.

(** The [useState] cells of [App]. *)
Record AppState : Type := mkApp {
  paperSize : option PaperSizeKey;
  mode : Mode;
  items : list CanvasItem;
  selectedId : option string;
  zoom : Q;
  pan : Q * Q;
  isPanning : bool
}.

Definition initialState : AppState :=
  mkApp None edit [] None 1 (0, 0) false.

Definition setPaperSize (next : PaperSizeKey) (s : AppState) : AppState :=
  mkApp (Some next) (mode s) (items s) (selectedId s) (zoom s) (pan s)
        (isPanning s).

Definition setMode (m : Mode) (s : AppState) : AppState :=
  mkApp (paperSize s) m (items s) (selectedId s) (zoom s) (pan s)
        (isPanning s).

(** [setItems(f)] with an updater function. *)
Definition setItems (f : list CanvasItem -> list CanvasItem) (s : AppState)
  : AppState :=
  mkApp (paperSize s) (mode s) (f (items s)) (selectedId s) (zoom s) (pan s)
        (isPanning s).

(** [setSelectedId(f)] with an updater function. *)
Definition updSelectedId (f : option string -> option string) (s : AppState)
  : AppState :=
  mkApp (paperSize s) (mode s) (items s) (f (selectedId s)) (zoom s) (pan s)
        (isPanning s).

(** [setSelectedId(v)]; the specification calls it [select]. *)
Definition setSelectedId (v : option string) (s : AppState) : AppState :=
  updSelectedId (fun _ => v) s.

Definition setPan (p : Q * Q) (s : AppState) : AppState :=
  mkApp (paperSize s) (mode s) (items s) (selectedId s) (zoom s) p
        (isPanning s).

Definition setIsPanning (b : bool) (s : AppState) : AppState :=
  mkApp (paperSize s) (mode s) (items s) (selectedId s) (zoom s) (pan s) b.

(** [items.find((item) => item.id === selectedId) || null]; no item id is
    [=== null]. *)
Definition selectedItem (s : AppState) : option CanvasItem :=
  match selectedId s with
  | None => None
  | Some sid => find (fun item => String.eqb (itemId item) sid) (items s)
  end.

(** Variant defaults of [handleAddItem]. *)
Definition defaultBase (newId : string) : BaseItem.t :=
  BaseItem.mk newId 40 40 160 60.

Definition defaultItem (type : CanvasItemType) (newId : string)
  : CanvasItem :=
  match type with
  | text_t =>
      Text (TextItem.mk (defaultBase newId) "テキスト" 16 false Align.left)
  | data_t =>
      Data (DataItem.mk (defaultBase newId) EmptyString 16 false Align.left
              EmptyString EmptyString "（未設定）"
              (ConditionSetting.mk false "名前" equals EmptyString
                 EmptyString EmptyString))
  | rectangle_t =>
      Rectangle (RectangleItem.mk (defaultBase newId) "#f5f5f5" "#999999" 1 4)
  | line_t =>
      Line (LineItem.mk (BaseItem.mk newId 40 40 160 2) "#333333" 2
              horizontal)
  end.

(** [handleAddItem]; [newId] is the value drawn by [generateId()]. *)
Definition handleAddItem (type : CanvasItemType) (newId : string)
    (s : AppState) : AppState :=
  match paperSize s with
  | None => s
  | Some _ =>
      setSelectedId (Some newId)
        (setItems (fun prev => (prev ++ [defaultItem type newId])%list) s)
  end.

(** The updater of [handleItemUpdate] on the item list. *)
Definition updateItems (id : string) (payload : Payload)
    (prev : list CanvasItem) : list CanvasItem :=
  map (fun item =>
         if String.eqb (itemId item) id then merge item payload else item)
      prev.

(** [handleItemUpdate]; the specification calls it [updateItem]. *)
Definition handleItemUpdate (id : string) (payload : Payload) (s : AppState)
  : AppState :=
  setItems (updateItems id payload) s.

(** [handleDelete]; the specification calls it [deleteItem]. *)
Definition handleDelete (id : string) (s : AppState) : AppState :=
  updSelectedId
    (fun prev =>
       match prev with
       | Some p => if String.eqb p id then None else prev
       | None => prev
       end)
    (setItems (filter (fun item => negb (String.eqb (itemId item) id))) s).

(** [resetDocument], also the body of the deferred callback of the
    paper-size select. *)
Definition resetDocument (s : AppState) : AppState :=
  setIsPanning false
    (setPan (0, 0) (setSelectedId None (setItems (fun _ => []) s))).

(* ================================================================= *)
(** ** Line geometry *)

(** The object literal built by [applyLineResize]. *)
Definition lineResizePayload (target : LineItem.t) (nextWidth nextHeight : Q)
    (position : Q * Q) : Payload :=
  let rawThickness :=
    match LineItem.orientation target with
    | horizontal => nextHeight
    | vertical => nextWidth
    end in
  let thickness := Qmax rawThickness 1 in
  [ F_width (match LineItem.orientation target with
             | horizontal => nextWidth
             | vertical => thickness
             end);
    F_height (match LineItem.orientation target with
              | horizontal => thickness
              | vertical => nextHeight
              end);
    F_x (fst position);
    F_y (snd position);
    F_thickness thickness ].

(** [applyLineResize]. *)
Definition applyLineResize (target : LineItem.t) (nextWidth nextHeight : Q)
    (position : Q * Q) (s : AppState) : AppState :=
  handleItemUpdate (BaseItem.id (LineItem.base target))
    (lineResizePayload target nextWidth nextHeight position) s.

(** The object literal of the thickness input's [onChange];
    [thickness] is [Number(event.target.value)]. *)
Definition thicknessPayload (selected : LineItem.t) (thickness : Q)
  : Payload :=
  [ F_thickness thickness;
    F_height (match LineItem.orientation selected with
              | horizontal => thickness
              | vertical => BaseItem.height (LineItem.base selected)
              end);
    F_width (match LineItem.orientation selected with
             | vertical => thickness
             | horizontal => BaseItem.width (LineItem.base selected)
             end) ].

(** The object literal of the orientation select's [onChange].  The source
    text carries, after the [thickness] property, the tail of the property
    list of an earlier revision ([Math.max(..., 120)]) that does not parse;
    the model is the property list written in full.  Of what the result
    stores only the height depends on this reading; the width, the thickness
    and the orientation are the same with the tail read as a second [height]
    ([orientationPayloadWithRemnant]). *)
Definition orientationPayload (selected : LineItem.t)
    (orientation : Orientation) : Payload :=
  let currentLength :=
    match LineItem.orientation selected with
    | horizontal => BaseItem.width (LineItem.base selected)
    | vertical => BaseItem.height (LineItem.base selected)
    end in
  let currentThickness :=
    match LineItem.orientation selected with
    | horizontal => BaseItem.height (LineItem.base selected)
    | vertical => BaseItem.width (LineItem.base selected)
    end in
  [ F_orientation orientation;
    F_width (match orientation with
             | horizontal => currentLength
             | vertical => currentThickness
             end);
    F_height (match orientation with
              | vertical => currentLength
              | horizontal => currentThickness
              end);
    F_thickness (Qmax currentThickness 1) ].

(** The same literal read with the one property of the remnant that is
    complete, a second [height], kept as a duplicate key behind the others. *)
Definition orientationPayloadWithRemnant (selected : LineItem.t)
    (orientation : Orientation) : Payload :=
  (orientationPayload selected orientation
   ++ [ F_height (match orientation with
                  | vertical =>
                      Qmax (BaseItem.height (LineItem.base selected)) 120
                  | horizontal => LineItem.thickness selected
                  end) ])%list.

(** The two editors as item transformers: the payload is built from the
    selected line and spread over it. *)
Definition setThickness (item : LineItem.t) (newThickness : Q) : LineItem.t :=
  mergeLine item (thicknessPayload item newThickness).

Definition setOrientation (item : LineItem.t) (newOrientation : Orientation)
  : LineItem.t :=
  mergeLine item (orientationPayload item newOrientation).

(** [applyResize] of the specification on a line item. *)
Definition applyResize (item : LineItem.t) (newWidth newHeight newX newY : Q)
  : LineItem.t :=
  mergeLine item (lineResizePayload item newWidth newHeight (newX, newY)).

(** The editors as handlers on the application state. *)
Definition onThicknessChange (selected : LineItem.t) (thickness : Q)
    (s : AppState) : AppState :=
  handleItemUpdate (BaseItem.id (LineItem.base selected))
    (thicknessPayload selected thickness) s.

Definition onOrientationChange (selected : LineItem.t)
    (orientation : Orientation) (s : AppState) : AppState :=
  handleItemUpdate (BaseItem.id (LineItem.base selected))
    (orientationPayload selected orientation) s.

(** A sequence of thickness and orientation edits on one line. *)
Inductive LineEdit : Type :=
| EditThickness (newThickness : Q)
| EditOrientation (newOrientation : Orientation).

Definition applyEdit (item : LineItem.t) (e : LineEdit) : LineItem.t :=
  match e with
  | EditThickness t => setThickness item t
  | EditOrientation o => setOrientation item o
  end.

Definition applyEdits (item : LineItem.t) (es : list LineEdit) : LineItem.t :=
  fold_left applyEdit es item.

(** The line invariant of the data model. *)
Definition lineInvariant (item : LineItem.t) : Prop :=
  match LineItem.orientation item with
  | horizontal => BaseItem.height (LineItem.base item) = LineItem.thickness item
  | vertical => BaseItem.width (LineItem.base item) = LineItem.thickness item
  end.

(* ================================================================= *)
(** ** The paper-size select and the timer queue *)

(** A callback handed to [setTimeout(_, 0)], waiting in the timer queue. *)
Definition Task : Type := AppState -> AppState.

(** The arrow function scheduled by the header select. *)
Definition deferredReset : Task :=
  fun s => setIsPanning false
             (setPan (0, 0) (setSelectedId None (setItems (fun _ => []) s))).

(** The page: the committed state cells and the pending zero-delay timers,
    oldest first.  An event handler runs to completion and its state updates
    are committed when it returns; a timer callback runs in a later turn of
    the event loop. *)
Record Page : Type := mkPage {
  app : AppState;
  timers : list Task
}.

Definition initialPage : Page := mkPage initialState [].

(** The workspace with the canvas, the "add" buttons and the property panel
    is rendered only in edit mode with a paper size chosen. *)
Definition workspaceShown (s : AppState) : bool :=
  match mode s, paperSize s with
  | edit, Some _ => true
  | _, _ => false
  end.

Inductive Event : Type :=
| PaperSelect (next : PaperSizeKey)    (* header select, onChange *)
| OverlaySelect (next : PaperSizeKey)  (* overlay select, shown while no size *)
| ModeClick (m : Mode)
| AddClick (type : CanvasItemType) (newId : string)
| ItemUpdate (id : string) (payload : Payload)  (* drag, resize, editors *)
| DeleteClick                                   (* deletes the selected item *)
| ItemMouseDown (id : string)
| ResetClick
| TimerFires.

(** The [onChange] of the header select. *)
Definition onPaperSelect (next : PaperSizeKey) (p : Page) : Page :=
  mkPage (setPaperSize next (app p)) (timers p ++ [deferredReset])%list.

(** One turn of the event loop.  An event whose control is not rendered
    leaves the page as it is. *)
Definition step (p : Page) (e : Event) : Page :=
  match e with
  | PaperSelect next => onPaperSelect next p
  | OverlaySelect next =>
      match paperSize (app p) with
      | None => mkPage (setPaperSize next (app p)) (timers p)
      | Some _ => p
      end
  | ModeClick m => mkPage (setMode m (app p)) (timers p)
  | AddClick type newId =>
      if workspaceShown (app p)
      then mkPage (handleAddItem type newId (app p)) (timers p)
      else p
  | ItemUpdate id payload =>
      if workspaceShown (app p)
      then mkPage (handleItemUpdate id payload (app p)) (timers p)
      else p
  | DeleteClick =>
      if workspaceShown (app p)
      then match selectedItem (app p) with
           | Some item => mkPage (handleDelete (itemId item) (app p)) (timers p)
           | None => p
           end
      else p
  | ItemMouseDown id =>
      if workspaceShown (app p)
         && existsb (fun item => String.eqb (itemId item) id) (items (app p))
      then mkPage (setSelectedId (Some id) (app p)) (timers p)
      else p
  | ResetClick => mkPage (resetDocument (app p)) (timers p)
  | TimerFires =>
      match timers p with
      | [] => p
      | task :: rest => mkPage (task (app p)) rest
      end
  end.

Definition run (p : Page) (es : list Event) : Page := fold_left step es p.

(** Events that neither choose a paper size nor fire a timer. *)
Definition isEdit (e : Event) : bool :=
  match e with
  | PaperSelect _ | OverlaySelect _ | TimerFires => false
  | _ => true
  end.

(** The pages the application can be in. *)
Inductive reachable : Page -> Prop :=
| reachable_initial : reachable initialPage
| reachable_step (p : Page) (e : Event) :
    reachable p -> reachable (step p e).

(** Before a paper size is chosen the document is empty, and every pending
    timer is a deferred reset. *)
Definition pageInvariant (p : Page) : Prop :=
  (paperSize (app p) = None ->
   items (app p) = [] /\ selectedId (app p) = None)
  /\ Forall (fun task => task = deferredReset) (timers p).

(* ================================================================= *)
(** ** Auxiliary notions used by the statements *)

(** [l1] is [l2] with some elements left out, the others in their order. *)
Inductive Subseq {A : Type} : list A -> list A -> Prop :=
| Subseq_nil : Subseq [] []
| Subseq_skip (a : A) (l1 l2 : list A) : Subseq l1 l2 -> Subseq l1 (a :: l2)
| Subseq_keep (a : A) (l1 l2 : list A) :
    Subseq l1 l2 -> Subseq (a :: l1) (a :: l2).

(** No brace occurs in [s]. *)
Fixpoint braceFree (s : string) : bool :=
  match s with
  | EmptyString => true
  | String c s' => negb (isBrace c) && braceFree s'
  end.

(** The text a placeholder token [{rawKey}] takes in the source string. *)
Definition token (rawKey : string) : string := "{" ++ rawKey ++ "}".

(** The predicate of a condition on the source text. *)
Definition holds (op : ConditionOperator) (source compareValue : string)
  : Prop :=
  match op with
  | equals => source = compareValue
  | notEquals => source <> compareValue
  | contains => exists pre post, source = pre ++ compareValue ++ post
  end.

(** The text of [record[column]], empty when the field is absent. *)
Definition sourceText (column : string) : string :=
  match getField DB_SAMPLE column with
  | Some v => jsString v
  | None => EmptyString
  end.

(** Sample items of the statements below. *)
Definition genderCondition (trueText : string) : ConditionSetting.t :=
  ConditionSetting.mk true "性別" equals "男性" trueText "Ms.".

Definition noCondition : ConditionSetting.t :=
  ConditionSetting.mk false "名前" equals EmptyString EmptyString EmptyString.

Definition dataItemOf (column prefix suffix emptyFallback : string)
    (condition : ConditionSetting.t) : DataItem.t :=
  DataItem.mk (defaultBase "d1") column 16 false Align.left prefix suffix
    emptyFallback condition.

Definition lineOf (w h thickness : Q) (o : Orientation) : LineItem.t :=
  LineItem.mk (BaseItem.mk "l1" 40 40 w h) "#333333" thickness o.

(** A document with a fresh line and a fresh text box, the line selected. *)
Definition sampleState : AppState :=
  mkApp (Some A4) edit [defaultItem line_t "l1"; defaultItem text_t "t1"]
        (Some "l1") 1 (0, 0)%Q false.

(** A line as the data model wants it: invariant and thickness at least [1]. *)
Definition wellFormedLine (item : LineItem.t) : Prop :=
  lineInvariant item /\ (1 <= LineItem.thickness item)%Q.

(** Thickness edits of at least [1]; every orientation edit. *)
Definition editAtLeastOne (e : LineEdit) : Prop :=
  match e with
  | EditThickness t => (1 <= t)%Q
  | EditOrientation _ => True
  end.

(** The extent of a line across its orientation. *)
Definition thicknessExtent (item : LineItem.t) : Q :=
  match LineItem.orientation item with
  | horizontal => BaseItem.height (LineItem.base item)
  | vertical => BaseItem.width (LineItem.base item)
  end.

(** The extent of a line along its orientation. *)
Definition lengthExtent (item : LineItem.t) : Q :=
  match LineItem.orientation item with
  | horizontal => BaseItem.width (LineItem.base item)
  | vertical => BaseItem.height (LineItem.base item)
  end.

(* ================================================================= *)
(** ** Reading the properties of an item *)

(** The property names a payload can assign. *)
Inductive FieldKey : Type :=
| K_x | K_y | K_width | K_height
| K_text | K_fontSize | K_bold | K_align
| K_column | K_prefix | K_suffix | K_emptyFallback | K_condition
| K_background | K_borderColor | K_borderWidth | K_borderRadius
| K_color | K_thickness | K_orientation.

Definition FieldKey_eq_dec (a b : FieldKey) : {a = b} + {a <> b}.
Proof. decide equality. Defined.

(** The key of a property assignment. *)
Definition keyOf (f : Field) : FieldKey :=
  match f with
  | F_x _ => K_x
  | F_y _ => K_y
  | F_width _ => K_width
  | F_height _ => K_height
  | F_text _ => K_text
  | F_fontSize _ => K_fontSize
  | F_bold _ => K_bold
  | F_align _ => K_align
  | F_column _ => K_column
  | F_prefix _ => K_prefix
  | F_suffix _ => K_suffix
  | F_emptyFallback _ => K_emptyFallback
  | F_condition _ => K_condition
  | F_background _ => K_background
  | F_borderColor _ => K_borderColor
  | F_borderWidth _ => K_borderWidth
  | F_borderRadius _ => K_borderRadius
  | F_color _ => K_color
  | F_thickness _ => K_thickness
  | F_orientation _ => K_orientation
  end.

(** [item[key]], as the assignment that would store the value the item
    holds; [None] when the variant of the item has no such property. *)
Definition readField (k : FieldKey) (item : CanvasItem) : option Field :=
  match k, item with
  | K_x, _ => Some (F_x (BaseItem.x (baseOf item)))
  | K_y, _ => Some (F_y (BaseItem.y (baseOf item)))
  | K_width, _ => Some (F_width (BaseItem.width (baseOf item)))
  | K_height, _ => Some (F_height (BaseItem.height (baseOf item)))
  | K_text, Text i => Some (F_text (TextItem.text i))
  | K_fontSize, Text i => Some (F_fontSize (TextItem.fontSize i))
  | K_bold, Text i => Some (F_bold (TextItem.bold i))
  | K_align, Text i => Some (F_align (TextItem.align i))
  | K_column, Data i => Some (F_column (DataItem.column i))
  | K_fontSize, Data i => Some (F_fontSize (DataItem.fontSize i))
  | K_bold, Data i => Some (F_bold (DataItem.bold i))
  | K_align, Data i => Some (F_align (DataItem.align i))
  | K_prefix, Data i => Some (F_prefix (DataItem.prefix i))
  | K_suffix, Data i => Some (F_suffix (DataItem.suffix i))
  | K_emptyFallback, Data i =>
      Some (F_emptyFallback (DataItem.emptyFallback i))
  | K_condition, Data i => Some (F_condition (DataItem.condition i))
  | K_background, Rectangle i =>
      Some (F_background (RectangleItem.background i))
  | K_borderColor, Rectangle i =>
      Some (F_borderColor (RectangleItem.borderColor i))
  | K_borderWidth, Rectangle i =>
      Some (F_borderWidth (RectangleItem.borderWidth i))
  | K_borderRadius, Rectangle i =>
      Some (F_borderRadius (RectangleItem.borderRadius i))
  | K_color, Line i => Some (F_color (LineItem.color i))
  | K_thickness, Line i => Some (F_thickness (LineItem.thickness i))
  | K_orientation, Line i => Some (F_orientation (LineItem.orientation i))
  | _, _ => None
  end.

(** The assignment of [k] that stands last in a payload, if there is one;
    [acc] is the one found so far. *)
Definition lastAssignedFrom (k : FieldKey) (acc : option Field)
    (payload : Payload) : option Field :=
  fold_left
    (fun found f => if FieldKey_eq_dec (keyOf f) k then Some f else found)
    payload acc.

Definition lastAssigned (k : FieldKey) (payload : Payload) : option Field :=
  lastAssignedFrom k None payload.

(** [item.type]. *)
Definition typeOf (item : CanvasItem) : CanvasItemType :=
  match item with
  | Text _ => text_t
  | Data _ => data_t
  | Rectangle _ => rectangle_t
  | Line _ => line_t
  end.

(* ================================================================= *)
(** ** Further handlers: generic size editors, condition checkbox, pan *)

(** The same spread as [merge] on an item known to be a data box. *)
Definition mergeData (item : DataItem.t) (payload : Payload) : DataItem.t :=
  fold_left (fun it f => setData f it) payload item.

(** The object literal of the condition checkbox's [onChange]:
    [{ condition: { ...selectedItem.condition, enabled: checked } }]. *)
Definition conditionEnabledPayload (selected : DataItem.t) (checked : bool)
  : Payload :=
  let c := DataItem.condition selected in
  [ F_condition
      (ConditionSetting.mk checked (ConditionSetting.column c)
         (ConditionSetting.operator c) (ConditionSetting.value c)
         (ConditionSetting.trueText c) (ConditionSetting.falseText c)) ].

(** The checkbox as a transformer of the selected data box. *)
Definition setConditionEnabled (item : DataItem.t) (checked : bool)
  : DataItem.t :=
  mergeData item (conditionEnabledPayload item checked).

(** The checkbox as a handler on the application state. *)
Definition onConditionEnabledChange (selected : DataItem.t) (checked : bool)
    (s : AppState) : AppState :=
  handleItemUpdate (BaseItem.id (DataItem.base selected))
    (conditionEnabledPayload selected checked) s.

(** The generic height input of the property panel on a line:
    [handleItemUpdate(selectedItem.id, { height: Number(value) })]. *)
Definition setHeight (item : LineItem.t) (v : Q) : LineItem.t :=
  mergeLine item [F_height v].

(** The generic width input of the property panel on a line. *)
Definition setWidth (item : LineItem.t) (v : Q) : LineItem.t :=
  mergeLine item [F_width v].

(** [c] occurs in [s]. *)
Fixpoint hasChar (c : ascii) (s : string) : bool :=
  match s with
  | EmptyString => false
  | String d s' => Ascii.eqb d c || hasChar c s'
  end.

(** [panStartRef.current]. *)
Record PanStart : Type := mkPanStart {
  startX : Q;
  startY : Q;
  startPanX : Q;
  startPanY : Q
}.

(** The state cells together with the ref of the pan gesture. *)
Record Canvas : Type := mkCanvas {
  cstate : AppState;
  panStartRef : PanStart
}.

(** [handleCanvasMouseDown]: [button] is [event.button], [onSurface] tells
    that [event.target === event.currentTarget]. *)
Definition handleCanvasMouseDown (button : Z) (onSurface : bool)
    (clientX clientY : Q) (c : Canvas) : Canvas :=
  if negb (button =? 0)%Z then c
  else if negb onSurface then c
  else
    mkCanvas (setIsPanning true (cstate c))
      (mkPanStart clientX clientY (fst (pan (cstate c)))
         (snd (pan (cstate c)))).

(** [handleMouseUp] of the pan effect. *)
Definition handleMouseUp (c : Canvas) : Canvas :=
  mkCanvas (setIsPanning false (cstate c)) (panStartRef c).

Inductive PointerEvent : Type :=
| MouseDown (button : Z) (onSurface : bool) (clientX clientY : Q)
| MouseMove (clientX clientY : Q)
| MouseUp.

Section PanArithmetic.

(** The sum and the difference of two JS numbers.  They are the operations
    of IEEE doubles, which round; nothing is assumed about them. *)
Variables add sub : Q -> Q -> Q.

(** [handleMouseMove] of the pan effect. *)
Definition handleMouseMove (clientX clientY : Q) (c : Canvas) : Canvas :=
  let r := panStartRef c in
  let deltaX := sub clientX (startX r) in
  let deltaY := sub clientY (startY r) in
  mkCanvas
    (setPan (add (startPanX r) deltaX, add (startPanY r) deltaY) (cstate c))
    r.

(** The canvas surface is rendered with the workspace; the effect keeps the
    window listeners installed exactly while [isPanning] holds. *)
Definition pointerStep (c : Canvas) (e : PointerEvent) : Canvas :=
  match e with
  | MouseDown button onSurface clientX clientY =>
      if workspaceShown (cstate c)
      then handleCanvasMouseDown button onSurface clientX clientY c
      else c
  | MouseMove clientX clientY =>
      if isPanning (cstate c) then handleMouseMove clientX clientY c else c
  | MouseUp => if isPanning (cstate c) then handleMouseUp c else c
  end.

Definition pointerRun (c : Canvas) (es : list PointerEvent) : Canvas :=
  fold_left pointerStep es c.

End PanArithmetic.

(** Pointer positions as move events. *)
Definition movesOf (ps : list (Q * Q)) : list PointerEvent :=
  map (fun p => MouseMove (fst p) (snd p)) ps.

(** The selection of a page names an item of its list. *)
Definition selectionResolves (s : AppState) : Prop :=
  forall sid, selectedId s = Some sid ->
    exists item, selectedItem s = Some item /\ itemId item = sid.

(** A canvas in edit mode on A4 with the sample document. *)
Definition sampleCanvas : Canvas :=
  mkCanvas sampleState (mkPanStart 0 0 0 0).

(** Turn a boolean test on byte codes into arithmetic. *)
Ltac codes H :=
  unfold JsString.isSpace1, JsString.isSpace2, JsString.isSpace3 in H;
  cbv zeta in H;
  repeat rewrite ?orb_true_iff, ?andb_true_iff, ?N.eqb_eq, ?N.leb_le in H.

(* ================================================================= *)
(** * Properties *)

(* ================================================================= *)
(** ** Line geometry *)

Section LineGeometry.

Local Open Scope Q_scope.

(** [Math.max(q, 1)] returns [q] itself once [q] is at least [1]. *)
Lemma Qmax_one_id (q : Q) : 1 <= q -> Qmax q 1 = q.
Proof.
  intros H. unfold Qmax, GenericMinMax.gmax.
  destruct (q ?= 1) eqn:E; try reflexivity.
  apply Qlt_alt in E. exfalso. apply (Qlt_not_le _ _ E H).
Qed.

Lemma Qmax_one_ge (q : Q) : 1 <= Qmax q 1.
Proof. apply Q.le_max_r. Qed.

(** Spreading a payload over a line of the item list is the spread on the
    line itself. *)
Lemma merge_Line (item : LineItem.t) (payload : Payload) :
  merge (Line item) payload = Line (mergeLine item payload).
Proof.
  unfold merge, mergeLine. revert item.
  induction payload as [|f payload IH]; intros item; simpl.
  - reflexivity.
  - apply IH.
Qed.

(** The thickness editor stores the typed number as it is, on [thickness]
    and on the thickness axis, and leaves the length axis alone. *)
Lemma setThickness_fields (item : LineItem.t) (t : Q) :
  let item' := setThickness item t in
  LineItem.thickness item' = t
  /\ LineItem.orientation item' = LineItem.orientation item
  /\ match LineItem.orientation item with
     | horizontal =>
         BaseItem.height (LineItem.base item') = t
         /\ BaseItem.width (LineItem.base item')
            = BaseItem.width (LineItem.base item)
     | vertical =>
         BaseItem.width (LineItem.base item') = t
         /\ BaseItem.height (LineItem.base item')
            = BaseItem.height (LineItem.base item)
     end.
Proof.
  destruct item as [[i bx by_ bw bh] c th o]; destruct o; simpl;
    repeat split; reflexivity.
Qed.

Lemma setThickness_invariant (item : LineItem.t) (t : Q) :
  lineInvariant (setThickness item t).
Proof.
  destruct item as [[i bx by_ bw bh] c th o]; destruct o; reflexivity.
Qed.

(** The orientation editor: the old length goes to the new length axis,
    the old thickness-axis extent goes unclamped to the new thickness axis,
    and [thickness] receives that extent clamped to [1]. *)
Lemma setOrientation_fields (item : LineItem.t) (o : Orientation) :
  let item' := setOrientation item o in
  let len := lengthExtent item in
  let thick := thicknessExtent item in
  LineItem.orientation item' = o
  /\ LineItem.thickness item' = Qmax thick 1
  /\ match o with
     | horizontal =>
         BaseItem.width (LineItem.base item') = len
         /\ BaseItem.height (LineItem.base item') = thick
     | vertical =>
         BaseItem.height (LineItem.base item') = len
         /\ BaseItem.width (LineItem.base item') = thick
     end.
Proof.
  destruct item as [[i bx by_ bw bh] c th o0]; destruct o0, o; simpl;
    repeat split; reflexivity.
Qed.

Lemma setOrientation_thickness_ge (item : LineItem.t) (o : Orientation) :
  1 <= LineItem.thickness (setOrientation item o).
Proof.
  destruct (setOrientation_fields item o) as (_ & Ht & _).
  rewrite Ht. apply Qmax_one_ge.
Qed.

(** When the extent on the thickness axis is at least [1], the orientation
    editor re-establishes the line invariant. *)
Lemma setOrientation_invariant (item : LineItem.t) (o : Orientation) :
  1 <= thicknessExtent item ->
  lineInvariant (setOrientation item o).
Proof.
  intros H.
  destruct (setOrientation_fields item o) as (Ho & Ht & Hd).
  unfold lineInvariant. rewrite Ho, Ht, (Qmax_one_id _ H).
  destruct o; apply Hd.
Qed.

(** Invariant and lower bound are stable under thickness edits of at least
    [1] and under every orientation edit. *)
Lemma applyEdit_wellFormed (item : LineItem.t) (e : LineEdit) :
  wellFormedLine item -> editAtLeastOne e ->
  wellFormedLine (applyEdit item e).
Proof.
  intros [Hinv Hge] He. destruct e as [t|o]; simpl in *.
  - split.
    + apply setThickness_invariant.
    + destruct (setThickness_fields item t) as (Ht & _). rewrite Ht. exact He.
  - split.
    + apply setOrientation_invariant.
      unfold lineInvariant in Hinv. unfold thicknessExtent.
      destruct (LineItem.orientation item); rewrite Hinv; exact Hge.
    + apply setOrientation_thickness_ge.
Qed.

Lemma applyEdits_wellFormed (es : list LineEdit) (item : LineItem.t) :
  wellFormedLine item -> Forall editAtLeastOne es ->
  wellFormedLine (applyEdits item es).
Proof.
  revert item. induction es as [|e es IH]; intros item Hwf Hes; simpl.
  - exact Hwf.
  - inversion Hes as [|? ? He Hes']; subst.
    apply IH; [apply applyEdit_wellFormed; assumption | assumption].
Qed.

(** The second [height] of the remnant reaches neither the width nor
    [thickness] nor the orientation of the result. *)
Lemma remnant_keeps_width_thickness (item : LineItem.t) (o : Orientation) :
  let a := setOrientation item o in
  let b := mergeLine item (orientationPayloadWithRemnant item o) in
  BaseItem.width (LineItem.base b) = BaseItem.width (LineItem.base a)
  /\ LineItem.thickness b = LineItem.thickness a
  /\ LineItem.orientation b = LineItem.orientation a.
Proof.
  destruct item as [[i bx by_ bw bh] c th o0]; destruct o0, o; simpl;
    repeat split; reflexivity.
Qed.

(** A handler that updates the line [selected] replaces it, wherever it
    stands in the item list, by the spread of the payload over it. *)
Lemma handleItemUpdate_line (selected : LineItem.t) (payload : Payload)
    (s : AppState) (n : nat) :
  nth_error (items s) n = Some (Line selected) ->
  nth_error
    (items (handleItemUpdate (BaseItem.id (LineItem.base selected)) payload s))
    n
  = Some (Line (mergeLine selected payload)).
Proof.
  intros H. unfold handleItemUpdate, setItems, updateItems. simpl.
  rewrite nth_error_map, H. simpl.
  unfold itemId. simpl. rewrite String.eqb_refl, merge_Line. reflexivity.
Qed.

Lemma onThicknessChange_item (selected : LineItem.t) (t : Q) (s : AppState)
    (n : nat) :
  nth_error (items s) n = Some (Line selected) ->
  nth_error (items (onThicknessChange selected t s)) n
  = Some (Line (setThickness selected t)).
Proof. apply handleItemUpdate_line. Qed.

Lemma onOrientationChange_item (selected : LineItem.t) (o : Orientation)
    (s : AppState) (n : nat) :
  nth_error (items s) n = Some (Line selected) ->
  nth_error (items (onOrientationChange selected o s)) n
  = Some (Line (setOrientation selected o)).
Proof. apply handleItemUpdate_line. Qed.

Lemma applyLineResize_item (target : LineItem.t) (w h px py : Q)
    (s : AppState) (n : nat) :
  nth_error (items s) n = Some (Line target) ->
  nth_error (items (applyLineResize target w h (px, py) s)) n
  = Some (Line (applyResize target w h px py)).
Proof. apply handleItemUpdate_line. Qed.


(** C1.  The invariant and the lower bound do not survive every edit
    sequence.  On the line a fresh "add line" produces (160 by 2,
    thickness 2, horizontal): typing [0] in the thickness input stores
    thickness [0]; switching the orientation afterwards stores width [0]
    next to thickness [1]. *)
Theorem line_edits_escape_invariant :
  let fresh := lineOf 160 2 2 horizontal in
  let afterThickness := applyEdits fresh [EditThickness 0] in
  let afterBoth :=
    applyEdits fresh [EditThickness 0; EditOrientation vertical] in
  wellFormedLine fresh
  /\ LineItem.thickness afterThickness = 0
  /\ ~ 1 <= LineItem.thickness afterThickness
  /\ LineItem.orientation afterBoth = vertical
  /\ BaseItem.width (LineItem.base afterBoth) = 0
  /\ LineItem.thickness afterBoth = 1
  /\ ~ BaseItem.width (LineItem.base afterBoth)
       == LineItem.thickness afterBoth
  /\ ~ lineInvariant afterBoth.
Proof.
  cbv zeta. split; [split; [reflexivity | vm_compute; discriminate]|].
  split; [reflexivity|].
  split; [vm_compute; intros H; apply H; reflexivity|].
  do 3 (split; [reflexivity|]).
  split; vm_compute; discriminate.
Qed.

(** C4.  The orientation editor on a horizontal line of height [0]
    (width 160, thickness 0): the length 160 moves to the height and
    [thickness] is clamped to [1], but the new thickness axis, the width,
    receives the unclamped [0] and differs from [thickness]. *)
Theorem setOrientation_axis_not_clamped :
  let flat := lineOf 160 0 0 horizontal in
  let turned := setOrientation flat vertical in
  lineInvariant flat
  /\ LineItem.orientation turned = vertical
  /\ BaseItem.height (LineItem.base turned) = 160
  /\ LineItem.thickness turned = 1
  /\ BaseItem.width (LineItem.base turned) = 0
  /\ ~ BaseItem.width (LineItem.base turned) == LineItem.thickness turned.
Proof.
  cbv zeta. do 5 (split; [reflexivity|]). vm_compute. discriminate.
Qed.

End LineGeometry.

(* ================================================================= *)
(** ** Document model *)

Section DocumentModel.

Local Open Scope list_scope.

Lemma setBase_id (f : Field) (b : BaseItem.t) :
  BaseItem.id (setBase f b) = BaseItem.id b.
Proof. destruct b, f; reflexivity. Qed.

(** No assignment of a payload touches the id. *)
Lemma setField_id (item : CanvasItem) (f : Field) :
  itemId (setField item f) = itemId item.
Proof.
  unfold itemId.
  destruct item as [[b ? ? ? ?]|[b ? ? ? ? ? ? ? ?]|[b ? ? ? ?]|[b ? ? ?]];
    destruct f; simpl; try reflexivity; destruct b; reflexivity.
Qed.

Lemma merge_id (payload : Payload) (item : CanvasItem) :
  itemId (merge item payload) = itemId item.
Proof.
  unfold merge. revert item.
  induction payload as [|f payload IH]; intros item; simpl.
  - reflexivity.
  - rewrite IH. apply setField_id.
Qed.

(** Spreading two literals one after the other is spreading their
    concatenation: a later assignment overrides an earlier one. *)
Lemma merge_app (item : CanvasItem) (p1 p2 : Payload) :
  merge item (p1 ++ p2) = merge (merge item p1) p2.
Proof. unfold merge. apply fold_left_app. Qed.

(** An assigned position or size is what the item holds afterwards. *)
Lemma merge_base_field (item : CanvasItem) (v : Q) :
  BaseItem.x (baseOf (merge item [F_x v])) = v
  /\ BaseItem.y (baseOf (merge item [F_y v])) = v
  /\ BaseItem.width (baseOf (merge item [F_width v])) = v
  /\ BaseItem.height (baseOf (merge item [F_height v])) = v.
Proof.
  destruct item as [[[] ? ? ? ?]|[[] ? ? ? ? ? ? ? ?]|[[] ? ? ? ?]|[[] ? ? ?]];
    repeat split; reflexivity.
Qed.

Lemma updateItems_absent (id : string) (payload : Payload)
    (prev : list CanvasItem) :
  (forall item, In item prev -> itemId item <> id) ->
  updateItems id payload prev = prev.
Proof.
  unfold updateItems. induction prev as [|a prev IH]; intros H; simpl.
  - reflexivity.
  - destruct (String.eqb_spec (itemId a) id) as [E|E].
    + exfalso. apply (H a); [now left | exact E].
    + f_equal. apply IH. intros item Hin. apply H. now right.
Qed.

(** One assignment sets the property of its key and leaves every other
    property of the item as it was. *)
Lemma readField_setField (item : CanvasItem) (f : Field) (k : FieldKey) :
  readField k (setField item f)
  = match readField k item with
    | Some old => Some (if FieldKey_eq_dec (keyOf f) k then f else old)
    | None => None
    end.
Proof.
  destruct item as [[[] ? ? ? ?]|[[] ? ? ? ? ? ? ? ?]|[[] ? ? ? ?]|[[] ? ? ?]];
    destruct f; destruct k; reflexivity.
Qed.

Lemma lastAssignedFrom_acc (k : FieldKey) (payload : Payload)
    (acc : option Field) :
  lastAssignedFrom k acc payload
  = match lastAssigned k payload with
    | Some f => Some f
    | None => acc
    end.
Proof.
  unfold lastAssigned, lastAssignedFrom. revert acc.
  induction payload as [|f payload IH]; intros acc; simpl.
  - reflexivity.
  - rewrite (IH (if FieldKey_eq_dec (keyOf f) k then Some f else acc)).
    rewrite (IH (if FieldKey_eq_dec (keyOf f) k then Some f else None)).
    destruct (fold_left _ payload None); [reflexivity|].
    destruct (FieldKey_eq_dec (keyOf f) k); reflexivity.
Qed.

(** What a merged item holds: a property the payload assigns takes the value
    of the last assignment of its key, every other property keeps the value
    of the item; no property appears or disappears. *)
Lemma readField_merge (payload : Payload) (item : CanvasItem)
    (k : FieldKey) :
  readField k (merge item payload)
  = match readField k item with
    | Some old =>
        Some (match lastAssigned k payload with
              | Some f => f
              | None => old
              end)
    | None => None
    end.
Proof.
  unfold merge. revert item.
  induction payload as [|f payload IH]; intros item; simpl.
  - destruct (readField k item); reflexivity.
  - rewrite IH, readField_setField.
    destruct (readField k item) as [old|]; [|reflexivity].
    unfold lastAssigned at 2. unfold lastAssignedFrom. simpl.
    fold (lastAssignedFrom k
            (if FieldKey_eq_dec (keyOf f) k then Some f else None) payload).
    rewrite lastAssignedFrom_acc.
    destruct (lastAssigned k payload); [reflexivity|].
    destruct (FieldKey_eq_dec (keyOf f) k); reflexivity.
Qed.

Lemma merge_type (payload : Payload) (item : CanvasItem) :
  typeOf (merge item payload) = typeOf item.
Proof.
  unfold merge. revert item.
  induction payload as [|f payload IH]; intros item; simpl.
  - reflexivity.
  - rewrite IH. destruct item; reflexivity.
Qed.

(** C8.  [handleItemUpdate] is a total function that keeps the length of
    the list, replaces at every position an item of the given id by its
    merge with the payload and keeps an item of another id as it is, keeps
    the sequence of ids, touches no other state cell, and returns the
    state unchanged when no item has the id.  The merged item holds, for
    every property the payload assigns, the value of the last assignment of
    that property, and for every other property the value it held; its id
    and its type are those of the item. *)
Theorem handleItemUpdate_merges_in_place
    (id : string) (payload : Payload) (s : AppState) :
  let s' := handleItemUpdate id payload s in
  length (items s') = length (items s)
  /\ (forall n item,
        nth_error (items s) n = Some item ->
        nth_error (items s') n
        = Some (if String.eqb (itemId item) id
                then merge item payload else item))
  /\ (forall n, nth_error (items s) n = None ->
                nth_error (items s') n = None)
  /\ map itemId (items s') = map itemId (items s)
  /\ (paperSize s', mode s', selectedId s', zoom s', pan s', isPanning s')
     = (paperSize s, mode s, selectedId s, zoom s, pan s, isPanning s)
  /\ ((forall item, In item (items s) -> itemId item <> id) -> s' = s)
  /\ (forall n item,
        nth_error (items s) n = Some item -> itemId item = id ->
        exists item',
          nth_error (items s') n = Some item'
          /\ itemId item' = itemId item
          /\ typeOf item' = typeOf item
          /\ forall k,
               readField k item'
               = match readField k item with
                 | Some old =>
                     Some (match lastAssigned k payload with
                           | Some f => f
                           | None => old
                           end)
                 | None => None
                 end)
  /\ (forall n item,
        nth_error (items s) n = Some item -> itemId item <> id ->
        nth_error (items s') n = Some item).
Proof.
  cbv zeta. unfold handleItemUpdate, setItems, updateItems. simpl.
  split; [apply length_map|].
  split.
  { intros n item H. rewrite nth_error_map, H. reflexivity. }
  split.
  { intros n H. rewrite nth_error_map, H. reflexivity. }
  split.
  { rewrite map_map. apply map_ext. intros a.
    destruct (String.eqb (itemId a) id); [apply merge_id | reflexivity]. }
  split; [reflexivity|].
  split.
  { intros H. destruct s as [ps m its sel z pn ip]. simpl in *.
    f_equal. apply (updateItems_absent id payload its H). }
  split.
  { intros n item H Hid. exists (merge item payload).
    rewrite nth_error_map, H. simpl.
    rewrite (proj2 (String.eqb_eq _ _) Hid).
    split; [reflexivity|]. split; [apply merge_id|].
    split; [apply merge_type|]. intros k. apply readField_merge. }
  intros n item H Hid. rewrite nth_error_map, H. simpl.
  rewrite (proj2 (String.eqb_neq _ _) Hid). reflexivity.
Qed.

Lemma filter_Subseq {A : Type} (f : A -> bool) (l : list A) :
  Subseq (filter f l) l.
Proof.
  induction l as [|a l IH]; simpl.
  - constructor.
  - destruct (f a); constructor; exact IH.
Qed.

(** A selection that names no item of the list resolves to nothing. *)
Lemma selectedItem_dangling (s : AppState) :
  (forall item, In item (items s) -> Some (itemId item) <> selectedId s) ->
  selectedItem s = None.
Proof.
  unfold selectedItem. intros H.
  destruct (selectedId s) as [sid|]; [|reflexivity].
  destruct (find _ (items s)) as [item|] eqn:E; [|reflexivity].
  apply find_some in E. destruct E as [Hin Heq].
  apply String.eqb_eq in Heq. exfalso. apply (H item Hin). now rewrite Heq.
Qed.

(** C7.  [handleDelete] keeps exactly the items of another id, in their
    order: membership, sub-sequence, and distribution over any split of
    the list.  It clears the selection when it named the id and keeps it
    otherwise.  Selecting the deleted id afterwards leaves the list as it
    is and resolves to no item; so does every selection that names no
    item. *)
Theorem handleDelete_removes_and_unselects (id : string) (s : AppState) :
  let s' := handleDelete id s in
  let others := filter (fun item => negb (String.eqb (itemId item) id)) in
  (forall item,
      In item (items s') <-> In item (items s) /\ itemId item <> id)
  /\ Subseq (items s') (items s)
  /\ (forall l1 item l2,
        items s = l1 ++ item :: l2 ->
        items s'
        = others l1
            ++ (if String.eqb (itemId item) id then [] else [item])
            ++ others l2)
  /\ (selectedId s = Some id -> selectedId s' = None)
  /\ (selectedId s <> Some id -> selectedId s' = selectedId s)
  /\ items (setSelectedId (Some id) s') = items s'
  /\ selectedItem (setSelectedId (Some id) s') = None
  /\ (forall s0 : AppState,
        (forall item, In item (items s0) ->
                      Some (itemId item) <> selectedId s0) ->
        selectedItem s0 = None).
Proof.
  cbv zeta.
  assert (Hmem : forall item,
             In item (items (handleDelete id s))
             <-> In item (items s) /\ itemId item <> id).
  { intros item. unfold handleDelete, updSelectedId, setItems. simpl.
    rewrite filter_In.
    destruct (String.eqb_spec (itemId item) id) as [E|E]; simpl;
      intuition congruence. }
  split; [exact Hmem|].
  split; [apply filter_Subseq|].
  split.
  { intros l1 item l2 H. unfold handleDelete, updSelectedId, setItems.
    simpl. rewrite H, filter_app. simpl.
    destruct (String.eqb (itemId item) id); reflexivity. }
  split.
  { intros H. unfold handleDelete, updSelectedId, setItems. simpl.
    rewrite H, String.eqb_refl. reflexivity. }
  split.
  { intros H. unfold handleDelete, updSelectedId, setItems. simpl.
    destruct (selectedId s) as [p|]; [|reflexivity].
    destruct (String.eqb_spec p id) as [E|E]; [|reflexivity].
    exfalso. apply H. now rewrite E. }
  split; [reflexivity|].
  split.
  { apply selectedItem_dangling. intros item Hin Heq.
    change (items (setSelectedId (Some id) (handleDelete id s)))
      with (items (handleDelete id s)) in Hin.
    apply Hmem in Hin. destruct Hin as [_ Hne].
    simpl in Heq. injection Heq as Heq. exact (Hne Heq). }
  exact selectedItem_dangling.
Qed.

End DocumentModel.

(* ================================================================= *)
(** ** Strings *)

Section Strings.

Lemma append_assoc (a b c : string) : (a ++ b) ++ c = a ++ (b ++ c).
Proof. induction a as [|x a IH]; simpl; [reflexivity | now rewrite IH]. Qed.

Lemma append_empty_r (a : string) : a ++ EmptyString = a.
Proof. induction a as [|x a IH]; simpl; [reflexivity | now rewrite IH]. Qed.

Lemma length_append (a b : string) :
  String.length (a ++ b) = (String.length a + String.length b)%nat.
Proof. induction a as [|x a IH]; simpl; [reflexivity | now rewrite IH]. Qed.

(** [String.prefix t s] decides that [s] starts with [t]. *)
Lemma prefix_iff (t s : string) :
  String.prefix t s = true <-> exists post, s = t ++ post.
Proof.
  revert s. induction t as [|a t IH]; intros s.
  - split.
    + intros _. exists s. reflexivity.
    + intros _. destruct s; reflexivity.
  - destruct s as [|b s]; simpl.
    + split; [discriminate | intros [post H]; discriminate].
    + destruct (ascii_dec a b) as [E|E].
      * subst b. rewrite IH. split; intros [post H]; exists post.
        -- now rewrite H.
        -- now injection H.
      * split; [discriminate | intros [post H]; injection H as H1 _].
        now elim E.
Qed.

(** [includes] decides the substring relation. *)
Lemma includes_iff (s t : string) :
  JsString.includes s t = true <-> exists pre post, s = pre ++ t ++ post.
Proof.
  split.
  - induction s as [|c s IH]; cbn [JsString.includes]; intros H.
    + rewrite orb_false_r in H. apply prefix_iff in H.
      destruct H as [post H]. exists EmptyString, post. exact H.
    + apply orb_true_iff in H. destruct H as [H|H].
      * apply prefix_iff in H. destruct H as [post H].
        exists EmptyString, post. exact H.
      * destruct (IH H) as (pre & post & E).
        exists (String c pre), post. simpl. now rewrite E.
  - intros (pre & post & E). revert s E.
    induction pre as [|c pre IH]; intros s E.
    + simpl in E.
      assert (P : String.prefix t s = true)
        by (apply prefix_iff; exists post; exact E).
      destruct s; cbn [JsString.includes]; rewrite P; reflexivity.
    + destruct s as [|d s]; [discriminate|].
      simpl in E. injection E as _ E.
      cbn [JsString.includes]. rewrite (IH s E). apply orb_true_r.
Qed.

(** [String(v)] is empty for the empty string only: a number always prints
    at least one digit. *)
Lemma jsString_empty (v : DbValue) :
  jsString v = EmptyString <-> v = VString EmptyString.
Proof.
  split.
  - destruct v as [s|n]; simpl; intros H.
    + now rewrite H.
    + exfalso. destruct (Z.to_int n) as [d|d]; destruct d; discriminate.
  - intros ->. reflexivity.
Qed.

End Strings.

(* ================================================================= *)
(** ** Conditions and preview text *)

Section Binding.

Local Arguments getField : simpl never.

(** The boolean computed by [evaluateCondition] reflects the predicate of
    the operator. *)
Lemma holds_reflect (op : ConditionOperator) (source target : string) :
  reflect (holds op source target)
    (match op with
     | equals => String.eqb source target
     | notEquals => negb (String.eqb source target)
     | contains => JsString.includes source target
     end).
Proof.
  destruct op; simpl.
  - apply String.eqb_spec.
  - destruct (String.eqb_spec source target); constructor; auto.
  - apply iff_reflect. symmetry. apply includes_iff.
Qed.

(** C6.  [evaluateCondition] returns [null] exactly when the condition is
    disabled or its column is the empty string.  Otherwise it returns
    [trueText] when the predicate of the operator holds between the text
    of the column and the comparison value, and [falseText] when it does
    not; either text is returned as it is, the empty string included. *)
Theorem evaluateCondition_result (item : DataItem.t) :
  let c := DataItem.condition item in
  let source := sourceText (ConditionSetting.column c) in
  (evaluateCondition item = None
   <-> ConditionSetting.enabled c = false
       \/ ConditionSetting.column c = EmptyString)
  /\ (ConditionSetting.enabled c = true ->
      ConditionSetting.column c <> EmptyString ->
      (holds (ConditionSetting.operator c) source (ConditionSetting.value c)
       -> evaluateCondition item = Some (ConditionSetting.trueText c))
      /\ (~ holds (ConditionSetting.operator c) source
              (ConditionSetting.value c)
          -> evaluateCondition item = Some (ConditionSetting.falseText c))).
Proof.
  cbv zeta. unfold evaluateCondition, sourceText.
  destruct (DataItem.condition item) as [en col op val tt ft]. simpl.
  split.
  - destruct en; simpl.
    + destruct (String.eqb_spec col EmptyString) as [E|E].
      * split; [intros _; now right | reflexivity].
      * split; [discriminate | intros [H|H]; [discriminate | contradiction]].
    + split; [intros _; now left | reflexivity].
  - intros -> Hcol. simpl.
    destruct (String.eqb_spec col EmptyString) as [E|E]; [contradiction|].
    destruct (holds_reflect op
                match getField DB_SAMPLE col with
                | Some v => jsString v
                | None => EmptyString
                end val) as [H|H].
    + split; [reflexivity | intros H'; contradiction].
    + split; [intros H'; contradiction | reflexivity].
Qed.

(** C2.  [renderPreviewText] returns the result of the condition whenever
    it is a non-empty string, whatever column, prefix and suffix are.  When
    the condition gives [null] or the empty string, it returns the
    fallback if the column is unset or its value is absent or has an empty
    text, and the prefix, the text of the value and the suffix otherwise.
    An item without column and without enabled condition shows its
    fallback. *)
Theorem renderDataItem_precedence (item : DataItem.t) :
  (forall s,
      evaluateCondition item = Some s -> s <> EmptyString ->
      renderDataItem item = s)
  /\ (evaluateCondition item = None
      \/ evaluateCondition item = Some EmptyString ->
      (DataItem.column item = EmptyString
       \/ getField DB_SAMPLE (DataItem.column item) = None
       \/ (exists v, getField DB_SAMPLE (DataItem.column item) = Some v
                     /\ jsString v = EmptyString)
       -> renderDataItem item = DataItem.emptyFallback item)
      /\ (forall v,
             DataItem.column item <> EmptyString ->
             getField DB_SAMPLE (DataItem.column item) = Some v ->
             jsString v <> EmptyString ->
             renderDataItem item
             = DataItem.prefix item ++ jsString v ++ DataItem.suffix item))
  /\ (DataItem.column item = EmptyString ->
      ConditionSetting.enabled (DataItem.condition item) = false ->
      renderDataItem item = DataItem.emptyFallback item).
Proof.
  unfold renderDataItem, renderPreviewText.
  split; [|split].
  - intros s -> Hs. destruct s; [contradiction | reflexivity].
  - intros Hc.
    assert (E : match evaluateCondition item with
                | Some (String _ _) => False
                | _ => True
                end) by (destruct Hc as [-> | ->]; exact I).
    destruct (evaluateCondition item) as [[|c e]|]; try contradiction.
    + split.
      * intros [H|[H|(v & H & Hv)]].
        -- rewrite H. reflexivity.
        -- rewrite H. destruct (String.eqb _ _); reflexivity.
        -- rewrite H. apply jsString_empty in Hv. subst v.
           destruct (String.eqb _ _); reflexivity.
      * intros v Hcol Hget Hv.
        destruct (String.eqb_spec (DataItem.column item) EmptyString)
          as [E0|E0]; [contradiction|].
        rewrite Hget. destruct v as [[|a s]|z]; try reflexivity.
        now elim Hv.
    + split.
      * intros [H|[H|(v & H & Hv)]].
        -- rewrite H. reflexivity.
        -- rewrite H. destruct (String.eqb _ _); reflexivity.
        -- rewrite H. apply jsString_empty in Hv. subst v.
           destruct (String.eqb _ _); reflexivity.
      * intros v Hcol Hget Hv.
        destruct (String.eqb_spec (DataItem.column item) EmptyString)
          as [E0|E0]; [contradiction|].
        rewrite Hget. destruct v as [[|a s]|z]; try reflexivity.
        now elim Hv.
  - intros Hcol Hen. unfold evaluateCondition. rewrite Hen, Hcol.
    reflexivity.
Qed.

End Binding.

(* ================================================================= *)
(** ** White space *)

Section Trim.

Local Arguments JsString.isSpace1 : simpl never.
Local Arguments JsString.isSpace2 : simpl never.
Local Arguments JsString.isSpace3 : simpl never.

(** The shapes of a string of white space. *)
Lemma isBlank_inv (a : string) :
  JsString.isBlank a = true ->
  a = EmptyString
  \/ (exists c s, a = String c s /\ JsString.isSpace1 c = true
                  /\ JsString.isBlank s = true)
  \/ (exists c1 c2 s,
         a = String c1 (String c2 s) /\ JsString.isSpace1 c1 = false
         /\ JsString.isSpace2 c1 c2 = true /\ JsString.isBlank s = true)
  \/ (exists c1 c2 c3 s,
         a = String c1 (String c2 (String c3 s))
         /\ JsString.isSpace1 c1 = false /\ JsString.isSpace2 c1 c2 = false
         /\ JsString.isSpace3 c1 c2 c3 = true /\ JsString.isBlank s = true).
Proof.
  unfold JsString.isBlank.
  destruct a as [|c1 s1]; [now left|]. simpl.
  destruct (JsString.isSpace1 c1) eqn:E1.
  - intros H. right. left. exists c1, s1. auto.
  - destruct s1 as [|c2 s2]; [discriminate|].
    destruct (JsString.isSpace2 c1 c2) eqn:E2.
    + intros H. right. right. left. exists c1, c2, s2. auto.
    + destruct s2 as [|c3 s3]; [discriminate|].
      destruct (JsString.isSpace3 c1 c2 c3) eqn:E3; [|discriminate].
      intros H. right. right. right. exists c1, c2, c3, s3. auto.
Qed.

(** White space in front of a text is dropped. *)
Lemma trimStart_blank_app (s : string) (n : nat) (w : string) :
  (String.length w <= n)%nat -> JsString.isBlank w = true ->
  JsString.trimStart (w ++ s) = JsString.trimStart s.
Proof.
  revert w. induction n as [|n IH]; intros w Hn Hw.
  - destruct w; [reflexivity | simpl in Hn; lia].
  - destruct (isBlank_inv w Hw)
      as [->|[(c & r & -> & E1 & Hr)
             |[(c1 & c2 & r & -> & E1 & E2 & Hr)
              |(c1 & c2 & c3 & r & -> & E1 & E2 & E3 & Hr)]]];
      simpl in Hn |- *.
    + reflexivity.
    + rewrite E1. apply IH; [lia | exact Hr].
    + rewrite E1, E2. apply IH; [lia | exact Hr].
    + rewrite E1, E2, E3. apply IH; [lia | exact Hr].
Qed.

(** The first byte of a string of white space is a one-byte blank or the
    lead byte of an encoded one. *)
Lemma isBlank_first (c : ascii) (w : string) :
  JsString.isBlank (String c w) = true ->
  (JsString.isSpace1 c = true
   \/ N_of_ascii c = 0xC2 \/ N_of_ascii c = 0xE1 \/ N_of_ascii c = 0xE2
   \/ N_of_ascii c = 0xE3 \/ N_of_ascii c = 0xEF)%N.
Proof.
  intros H.
  destruct (isBlank_inv _ H)
    as [E|[(c' & r & E & E1 & _)
          |[(c1 & c2 & r & E & _ & E2 & _)
           |(c1 & c2 & c3 & r & E & _ & _ & E3 & _)]]];
    try discriminate; injection E as <- _.
  - now left.
  - unfold JsString.isSpace2 in E2.
    apply andb_true_iff in E2. destruct E2 as [E2 _].
    apply N.eqb_eq in E2. auto.
  - unfold JsString.isSpace3 in E3. cbv zeta in E3.
    repeat rewrite ?orb_true_iff, ?andb_true_iff, ?N.eqb_eq in E3.
    intuition auto.
Qed.

Lemma isBrace_code (c : ascii) :
  isBrace c = true -> (N_of_ascii c = 123 \/ N_of_ascii c = 125)%N.
Proof.
  unfold isBrace. intros H. apply orb_true_iff in H.
  destruct H as [H|H]; apply Ascii.eqb_eq in H; subst c; auto.
Qed.

(** Such a byte is no brace and no continuation byte of an encoded blank. *)
Lemma lead_not_continuation (c : ascii) :
  (JsString.isSpace1 c = true
   \/ N_of_ascii c = 0xC2 \/ N_of_ascii c = 0xE1 \/ N_of_ascii c = 0xE2
   \/ N_of_ascii c = 0xE3 \/ N_of_ascii c = 0xEF)%N ->
  (forall c1, JsString.isSpace2 c1 c = false)
  /\ (forall c1 c3, JsString.isSpace3 c1 c c3 = false)
  /\ (forall c1 c2, JsString.isSpace3 c1 c2 c = false)
  /\ isBrace c = false.
Proof.
  intros L. codes L.
  repeat split; intros; apply not_true_is_false; intros G;
    try (apply isBrace_code in G); codes G; lia.
Qed.

(** Where [trimStart] stops, it also stops with white space appended. *)
Lemma trimStart_app_blank (w : string) (n : nat) (a : string) :
  (String.length a <= n)%nat ->
  JsString.isBlank a = false -> JsString.isBlank w = true ->
  JsString.trimStart (a ++ w) = JsString.trimStart a ++ w.
Proof.
  intros Hn Ha Hw. revert a Hn Ha.
  assert (W : w = EmptyString
              \/ exists c w', w = String c w'
                   /\ (forall c1, JsString.isSpace2 c1 c = false)
                   /\ (forall c1 c3, JsString.isSpace3 c1 c c3 = false)
                   /\ (forall c1 c2, JsString.isSpace3 c1 c2 c = false)).
  { destruct w as [|c w']; [now left|]. right. exists c, w'.
    destruct (lead_not_continuation c (isBlank_first c w' Hw))
      as (H1 & H2 & H3 & _). auto. }
  unfold JsString.isBlank.
  induction n as [|n IH]; intros a Hn Ha.
  - destruct a; [discriminate | simpl in Hn; lia].
  - destruct a as [|c1 s1]; [discriminate|].
    simpl in Hn, Ha |- *.
    destruct (JsString.isSpace1 c1) eqn:E1; [apply IH; [lia | exact Ha]|].
    destruct s1 as [|c2 s2].
    { destruct W as [->|(c & w' & -> & H1 & H2 & H3)]; [reflexivity|].
      simpl. rewrite H1. destruct w'; [reflexivity|]. now rewrite H2. }
    simpl in Hn |- *.
    destruct (JsString.isSpace2 c1 c2) eqn:E2; [apply IH; [lia | exact Ha]|].
    destruct s2 as [|c3 s3].
    { destruct W as [->|(c & w' & -> & H1 & H2 & H3)]; [reflexivity|].
      simpl. now rewrite H3. }
    simpl in Hn |- *.
    destruct (JsString.isSpace3 c1 c2 c3) eqn:E3;
      [apply IH; [lia | exact Ha] | reflexivity].
Qed.

(** Appending white space does not change whether a text is blank. *)
Lemma isBlank_app_blank (a w : string) :
  JsString.isBlank w = true ->
  JsString.isBlank (a ++ w) = JsString.isBlank a.
Proof.
  intros Hw. destruct (JsString.isBlank a) eqn:Ha.
  - unfold JsString.isBlank.
    rewrite (trimStart_blank_app w _ a (le_n _) Ha). exact Hw.
  - unfold JsString.isBlank.
    rewrite (trimStart_app_blank w _ a (le_n _) Ha Hw).
    unfold JsString.isBlank in Ha.
    destruct (JsString.trimStart a); [discriminate | reflexivity].
Qed.

Local Arguments JsString.isBlank : simpl never.

(** White space behind a text is dropped. *)
Lemma trimEnd_app_blank (w s : string) :
  JsString.isBlank w = true ->
  JsString.trimEnd (s ++ w) = JsString.trimEnd s.
Proof.
  intros Hw. induction s as [|c s IH].
  - simpl. destruct w; simpl; [reflexivity | now rewrite Hw].
  - change (String c s ++ w) with (String c (s ++ w)).
    cbn [JsString.trimEnd].
    change (String c (s ++ w)) with (String c s ++ w).
    rewrite (isBlank_app_blank _ _ Hw), IH. reflexivity.
Qed.

(** [trim] ignores white space around a text. *)
Lemma trim_padding (w1 s w2 : string) :
  JsString.isBlank w1 = true -> JsString.isBlank w2 = true ->
  JsString.trim (w1 ++ s ++ w2) = JsString.trim s.
Proof.
  intros H1 H2. unfold JsString.trim.
  rewrite (trimStart_blank_app _ _ w1 (le_n _) H1).
  destruct (JsString.isBlank s) eqn:Hs.
  - rewrite (trimStart_blank_app _ _ s (le_n _) Hs).
    unfold JsString.isBlank in Hs, H2.
    apply String.eqb_eq in Hs, H2. now rewrite Hs, H2.
  - rewrite (trimStart_app_blank _ _ s (le_n _) Hs H2).
    apply trimEnd_app_blank. exact H2.
Qed.

(** White space holds no brace. *)
Lemma isBlank_braceFree (n : nat) (w : string) :
  (String.length w <= n)%nat -> JsString.isBlank w = true ->
  braceFree w = true.
Proof.
  revert w. induction n as [|n IH]; intros w Hn Hw.
  - destruct w; [reflexivity | simpl in Hn; lia].
  - destruct (isBlank_inv w Hw)
      as [->|[(c & r & -> & E1 & Hr)
             |[(c1 & c2 & r & -> & E1 & E2 & Hr)
              |(c1 & c2 & c3 & r & -> & E1 & E2 & E3 & Hr)]]];
      simpl in Hn |- *.
    + reflexivity.
    + rewrite (IH r) by (lia || exact Hr).
      assert (B : isBrace c = false)
        by (apply not_true_is_false; intros G; apply isBrace_code in G;
            codes E1; lia).
      now rewrite B.
    + rewrite (IH r) by (lia || exact Hr).
      assert (B1 : isBrace c1 = false)
        by (apply not_true_is_false; intros G; apply isBrace_code in G;
            codes E2; lia).
      assert (B2 : isBrace c2 = false)
        by (apply not_true_is_false; intros G; apply isBrace_code in G;
            codes E2; lia).
      now rewrite B1, B2.
    + rewrite (IH r) by (lia || exact Hr).
      assert (B1 : isBrace c1 = false)
        by (apply not_true_is_false; intros G; apply isBrace_code in G;
            codes E3; lia).
      assert (B2 : isBrace c2 = false)
        by (apply not_true_is_false; intros G; apply isBrace_code in G;
            codes E3; lia).
      assert (B3 : isBrace c3 = false)
        by (apply not_true_is_false; intros G; apply isBrace_code in G;
            codes E3; lia).
      now rewrite B1, B2, B3.
Qed.

End Trim.

(* ================================================================= *)
(** ** Placeholder substitution *)

Section Placeholders.

Local Arguments JsString.trim : simpl never.
Local Arguments replacer : simpl never.

Lemma spanKey_length (s key rest : string) :
  spanKey s = (key, rest) ->
  String.length s = (String.length key + String.length rest)%nat.
Proof.
  revert key rest. induction s as [|c s IH]; intros key rest; simpl.
  - intros H. injection H as <- <-. reflexivity.
  - destruct (isBrace c).
    + intros H. injection H as <- <-. reflexivity.
    + destruct (spanKey s) as [k r]. intros H. injection H as <- <-.
      simpl. now rewrite (IH k r eq_refl).
Qed.

(** A match consumes at least the two braces and one byte. *)
Lemma matchToken_shorter (s rawKey rest : string) :
  matchToken s = Some (rawKey, rest) ->
  (String.length rest < String.length s)%nat.
Proof.
  destruct s as [|c s]; simpl; [discriminate|].
  destruct (Ascii.eqb c lbrace); [|discriminate].
  destruct (spanKey s) as [k r] eqn:E.
  apply spanKey_length in E.
  destruct k as [|a k]; [discriminate|].
  destruct r as [|d r]; [discriminate|].
  destruct (Ascii.eqb d rbrace); [|discriminate].
  intros H. injection H as _ <-. rewrite E. simpl. lia.
Qed.

(** Any fuel that covers the length of the text gives the same result. *)
Lemma replaceAll_fuel (f : string -> string) (n m : nat) (s : string) :
  (String.length s <= n)%nat -> (String.length s <= m)%nat ->
  replaceAll f n s = replaceAll f m s.
Proof.
  revert m s. induction n as [|n IH]; intros m s Hn Hm.
  - destruct s; [|simpl in Hn; lia]. destruct m; reflexivity.
  - destruct m as [|m].
    + destruct s; [reflexivity | simpl in Hm; lia].
    + simpl. destruct (matchToken s) as [[k rest]|] eqn:E.
      * apply matchToken_shorter in E. f_equal. apply IH; lia.
      * destruct s as [|c s]; [reflexivity|].
        simpl in Hn, Hm. f_equal. apply IH; lia.
Qed.

(** The loop of [replace], one round unfolded. *)
Lemma inject_unfold (s : string) :
  injectDbPlaceholders s
  = match matchToken s with
    | Some (rawKey, rest) => replacer rawKey ++ injectDbPlaceholders rest
    | None =>
        match s with
        | EmptyString => EmptyString
        | String c s' => String c (injectDbPlaceholders s')
        end
    end.
Proof.
  unfold injectDbPlaceholders. destruct s as [|c s]; [reflexivity|].
  change (String.length (String c s)) with (S (String.length s)).
  cbn [replaceAll].
  destruct (matchToken (String c s)) as [[k rest]|] eqn:E.
  - apply matchToken_shorter in E. simpl in E.
    f_equal. apply replaceAll_fuel; lia.
  - reflexivity.
Qed.

Lemma spanKey_braceFree (key s : string) :
  braceFree key = true ->
  spanKey (key ++ s) = (key ++ fst (spanKey s), snd (spanKey s)).
Proof.
  induction key as [|c key IH]; simpl; intros H.
  - destruct (spanKey s); reflexivity.
  - apply andb_true_iff in H. destruct H as [Hc Hk].
    apply negb_true_iff in Hc. rewrite Hc, (IH Hk). reflexivity.
Qed.

(** The pattern matches a token at the start of a text and captures the
    text between its braces. *)
Lemma matchToken_token (rawKey rest : string) :
  braceFree rawKey = true -> rawKey <> EmptyString ->
  matchToken (token rawKey ++ rest) = Some (rawKey, rest).
Proof.
  intros Hb Hne. unfold token. simpl.
  rewrite append_assoc, (spanKey_braceFree _ _ Hb). simpl.
  rewrite append_empty_r.
  destruct rawKey; [contradiction | reflexivity].
Qed.

(** An opening brace stops the brace-free run started before it. *)
Lemma spanKey_before_brace (p q : string) :
  spanKey (p ++ String lbrace q)
  = (fst (spanKey p), snd (spanKey p) ++ String lbrace q).
Proof.
  induction p as [|c p IH]; simpl.
  - reflexivity.
  - destruct (isBrace c); [reflexivity|].
    rewrite IH. destruct (spanKey p); reflexivity.
Qed.

(** A match that starts before an opening brace ends before it. *)
Lemma matchToken_before_brace (p q : string) :
  p <> EmptyString ->
  matchToken (p ++ String lbrace q)
  = match matchToken p with
    | Some (rawKey, rest) => Some (rawKey, rest ++ String lbrace q)
    | None => None
    end.
Proof.
  intros Hp. destruct p as [|c p]; [contradiction|]. simpl.
  destruct (Ascii.eqb c lbrace); [|reflexivity].
  rewrite spanKey_before_brace.
  destruct (spanKey p) as [k r]. simpl.
  destruct k as [|a k]; [reflexivity|].
  destruct r as [|d r]; simpl; [reflexivity|].
  destruct (Ascii.eqb d rbrace); reflexivity.
Qed.

(** Substitution splits at every opening brace. *)
Lemma inject_split_at_brace (q : string) (n : nat) (p : string) :
  (String.length p <= n)%nat ->
  injectDbPlaceholders (p ++ String lbrace q)
  = injectDbPlaceholders p ++ injectDbPlaceholders (String lbrace q).
Proof.
  revert p. induction n as [|n IH]; intros p Hn.
  - destruct p; [reflexivity | simpl in Hn; lia].
  - destruct p as [|c p]; [reflexivity|].
    rewrite (inject_unfold (String c p ++ String lbrace q)).
    rewrite (inject_unfold (String c p)).
    rewrite matchToken_before_brace by discriminate.
    destruct (matchToken (String c p)) as [[k r]|] eqn:E.
    + apply matchToken_shorter in E. simpl in E, Hn.
      rewrite IH by lia. now rewrite append_assoc.
    + simpl in Hn. simpl. rewrite IH by lia. reflexivity.
Qed.

(** A token anywhere in a text is handed to the replacer; the text before
    it and the text after it are substituted on their own. *)
Lemma inject_token (pre rawKey rest : string) :
  braceFree rawKey = true -> rawKey <> EmptyString ->
  injectDbPlaceholders (pre ++ token rawKey ++ rest)
  = injectDbPlaceholders pre ++ replacer rawKey
      ++ injectDbPlaceholders rest.
Proof.
  intros Hb Hne.
  assert (E : token rawKey ++ rest
              = String lbrace ((rawKey ++ "}") ++ rest)) by reflexivity.
  rewrite E, (inject_split_at_brace _ (String.length pre) pre (le_n _)).
  rewrite <- E, (inject_unfold (token rawKey ++ rest)).
  rewrite (matchToken_token _ _ Hb Hne). reflexivity.
Qed.

(** A text without opening brace is returned as it is. *)
Lemma inject_no_token (s : string) :
  (forall pre post, s <> pre ++ String lbrace post) ->
  injectDbPlaceholders s = s.
Proof.
  induction s as [|c s IH]; intros H; rewrite inject_unfold.
  - reflexivity.
  - simpl. destruct (Ascii.eqb_spec c lbrace) as [E|E].
    + exfalso. apply (H EmptyString s). now rewrite E.
    + f_equal. apply IH. intros pre post Hs.
      apply (H (String c pre) post). simpl. now rewrite Hs.
Qed.

(** The names of the record have nothing to trim. *)
Lemma trim_dbColumn (key : string) :
  isDbColumn key = true -> JsString.trim key = key.
Proof.
  unfold isDbColumn, dbColumns. simpl. intros H.
  repeat (apply orb_true_iff in H; destruct H as [H|H];
          [apply String.eqb_eq in H; subst key; vm_compute; reflexivity|]).
  discriminate.
Qed.

(** A known name is replaced by the text of its field. *)
Lemma replacer_known (key : string) :
  isDbColumn key = true -> replacer key = sourceText key.
Proof.
  intros H. unfold replacer, sourceText.
  rewrite (trim_dbColumn _ H), H. reflexivity.
Qed.

(** C5 (amended).  A token [{name}] in any text, [name] non-empty and
    without braces: when [name] is a field of the record the token is
    replaced by the text of that field; when [name] with surrounding white
    space removed is not a field the token stays as written, braces
    included.  The rest of the text is substituted independently.
    [Hello {名前}] gives [Hello 山田 太郎]; [{unknown}] is unchanged. *)
Theorem resolvePlaceholderText_tokens (pre rawKey rest : string) :
  braceFree rawKey = true -> rawKey <> EmptyString ->
  (isDbColumn rawKey = true ->
   resolvePlaceholderText (pre ++ token rawKey ++ rest)
   = resolvePlaceholderText pre ++ sourceText rawKey
       ++ resolvePlaceholderText rest)
  /\ (isDbColumn (JsString.trim rawKey) = false ->
      resolvePlaceholderText (pre ++ token rawKey ++ rest)
      = resolvePlaceholderText pre ++ token rawKey
          ++ resolvePlaceholderText rest)
  /\ resolvePlaceholderText "Hello {名前}" = "Hello 山田 太郎"
  /\ resolvePlaceholderText "{unknown}" = "{unknown}".
Proof.
  intros Hb Hne. unfold resolvePlaceholderText.
  rewrite (inject_token pre rawKey rest Hb Hne).
  split; [|split; [|split]].
  - intros H. now rewrite (replacer_known _ H).
  - intros H. unfold replacer. rewrite H. reflexivity.
  - vm_compute. reflexivity.
  - vm_compute. reflexivity.
Qed.

(** C10.  The name of a token is looked up with its surrounding white
    space removed: when the trimmed name is a field the token is replaced
    by the text of that field, in particular when the name is a field name
    padded with white space on either side; when the trimmed name is not a
    field the token stays with its inner text untrimmed.  [{ 名前 }] gives
    [山田 太郎]. *)
Theorem placeholder_name_is_trimmed (pre rawKey rest : string) :
  braceFree rawKey = true -> rawKey <> EmptyString ->
  (isDbColumn (JsString.trim rawKey) = true ->
   resolvePlaceholderText (pre ++ token rawKey ++ rest)
   = resolvePlaceholderText pre ++ sourceText (JsString.trim rawKey)
       ++ resolvePlaceholderText rest)
  /\ (forall w1 key w2,
         rawKey = w1 ++ key ++ w2 ->
         JsString.isBlank w1 = true -> JsString.isBlank w2 = true ->
         isDbColumn key = true ->
         resolvePlaceholderText (pre ++ token rawKey ++ rest)
         = resolvePlaceholderText pre ++ sourceText key
             ++ resolvePlaceholderText rest)
  /\ (isDbColumn (JsString.trim rawKey) = false ->
      resolvePlaceholderText (pre ++ token rawKey ++ rest)
      = resolvePlaceholderText pre ++ ("{" ++ rawKey ++ "}")
          ++ resolvePlaceholderText rest)
  /\ resolvePlaceholderText "{ 名前 }" = "山田 太郎".
Proof.
  intros Hb Hne. unfold resolvePlaceholderText.
  rewrite (inject_token pre rawKey rest Hb Hne).
  assert (K : isDbColumn (JsString.trim rawKey) = true ->
              replacer rawKey = sourceText (JsString.trim rawKey)).
  { intros H. unfold replacer, sourceText. rewrite H. reflexivity. }
  split; [|split; [|split]].
  - intros H. now rewrite (K H).
  - intros w1 key w2 -> H1 H2 Hk.
    assert (T : JsString.trim (w1 ++ key ++ w2) = key)
      by (rewrite (trim_padding _ _ _ H1 H2); apply trim_dbColumn, Hk).
    rewrite K; rewrite T; [reflexivity | exact Hk].
  - intros H. unfold replacer. rewrite H. reflexivity.
  - vm_compute. reflexivity.
Qed.

(** C5, as stated, at the token [{ 名前 }]: its name, with the two spaces,
    is no field of the record, and yet the token is not left as written. *)
Lemma padded_name_is_substituted :
  braceFree " 名前 " = true
  /\ isDbColumn " 名前 " = false
  /\ resolvePlaceholderText (token " 名前 ") = "山田 太郎"
  /\ resolvePlaceholderText (token " 名前 ") <> token " 名前 ".
Proof.
  split; [reflexivity|]. split; [reflexivity|].
  split; [vm_compute; reflexivity | vm_compute; discriminate].
Qed.

End Placeholders.

(* ================================================================= *)
(** ** Paper size and reset *)

Section Lifecycle.

Local Open Scope list_scope.

Lemma run_app (p : Page) (es1 es2 : list Event) :
  run p (es1 ++ es2) = run (run p es1) es2.
Proof. unfold run. apply fold_left_app. Qed.

(** The deferred callback empties the document and keeps the size. *)
Lemma deferredReset_effect (s : AppState) :
  items (deferredReset s) = []
  /\ selectedId (deferredReset s) = None
  /\ paperSize (deferredReset s) = paperSize s.
Proof. repeat split; reflexivity. Qed.

(** An edit event keeps paper size and timer queue. *)
Lemma step_edit (p : Page) (e : Event) :
  isEdit e = true ->
  paperSize (app (step p e)) = paperSize (app p)
  /\ timers (step p e) = timers p.
Proof.
  destruct e; try discriminate; intros _; simpl;
    try (split; reflexivity).
  - destruct (workspaceShown (app p)); [|split; reflexivity].
    unfold handleAddItem.
    destruct (paperSize (app p)) eqn:E; simpl; rewrite ?E; split;
      reflexivity.
  - destruct (workspaceShown (app p)); split; reflexivity.
  - destruct (workspaceShown (app p)); [|split; reflexivity].
    destruct (selectedItem (app p)); split; reflexivity.
  - destruct (workspaceShown (app p) && _); split; reflexivity.
Qed.

Lemma run_edits (es : list Event) (p : Page) :
  forallb isEdit es = true ->
  paperSize (app (run p es)) = paperSize (app p)
  /\ timers (run p es) = timers p.
Proof.
  revert p. induction es as [|e es IH]; intros p H; simpl.
  - split; reflexivity.
  - simpl in H. apply andb_true_iff in H. destruct H as [He Hes].
    destruct (IH (step p e) Hes) as [H1 H2].
    destruct (step_edit p e He) as [H3 H4].
    split; congruence.
Qed.

Lemma handleAddItem_paperSize (type : CanvasItemType) (newId : string)
    (s : AppState) :
  paperSize (handleAddItem type newId s) = paperSize s.
Proof.
  unfold handleAddItem. destruct (paperSize s) eqn:E; [|exact E].
  simpl. exact E.
Qed.

Lemma workspaceShown_paperSize (s : AppState) :
  workspaceShown s = true -> paperSize s <> None.
Proof.
  unfold workspaceShown. intros W H. rewrite H in W.
  destruct (mode s); discriminate.
Qed.

(** Every step keeps the page invariant. *)
Lemma step_invariant (p : Page) (e : Event) :
  pageInvariant p -> pageInvariant (step p e).
Proof.
  intros Keep. destruct Keep as [Hdoc Htm].
  assert (Keep : pageInvariant p) by (split; assumption).
  destruct e; simpl.
  - split; [discriminate|].
    apply Forall_app. split; [exact Htm | repeat constructor].
  - destruct (paperSize (app p)) eqn:E;
      [exact Keep | split; [discriminate | exact Htm]].
  - exact Keep.
  - destruct (workspaceShown (app p)) eqn:W; [|exact Keep].
    split; [|exact Htm]. simpl. rewrite handleAddItem_paperSize.
    intros H. now elim (workspaceShown_paperSize _ W).
  - destruct (workspaceShown (app p)) eqn:W; [|exact Keep].
    split; [|exact Htm]. simpl.
    intros H. now elim (workspaceShown_paperSize _ W).
  - destruct (workspaceShown (app p)) eqn:W; [|exact Keep].
    destruct (selectedItem (app p)); [|exact Keep].
    split; [|exact Htm]. simpl.
    intros H. now elim (workspaceShown_paperSize _ W).
  - destruct (workspaceShown (app p)) eqn:W; simpl; [|exact Keep].
    destruct (existsb _ _); [|exact Keep].
    split; [|exact Htm]. simpl.
    intros H. now elim (workspaceShown_paperSize _ W).
  - split; [intros _; split; reflexivity | exact Htm].
  - destruct (timers p) as [|task rest] eqn:E; [exact Keep|].
    inversion Htm as [|? ? Ht Hrest]; subst.
    split; [intros _; split; reflexivity | exact Hrest].
Qed.

Lemma reachable_invariant (p : Page) : reachable p -> pageInvariant p.
Proof.
  induction 1 as [|p e _ IH].
  - split; [intros _; split; reflexivity | constructor].
  - apply step_invariant. exact IH.
Qed.

(** C9.  The handler of the header select commits the new size, leaves
    items and selection as they are and appends the reset to the timer
    queue, behind every timer already pending: the reset is a later turn
    of the event loop.  A deferred reset that fires empties the item list,
    clears the selection and keeps the size.  From any page the application
    can be in, after the select, any edits and the next timer, the size is
    the chosen one, the item list is empty and nothing is selected.  The
    overlay select, which schedules no reset, is offered only while no size
    is chosen, when the document is empty already. *)
Theorem paper_select_reset_follows_commit (p : Page) (next : PaperSizeKey) :
  let p1 := step p (PaperSelect next) in
  (paperSize (app p1) = Some next
   /\ items (app p1) = items (app p)
   /\ selectedId (app p1) = selectedId (app p)
   /\ timers p1 = timers p ++ [deferredReset])
  /\ (forall (q : Page) (rest : list Task),
         timers q = deferredReset :: rest ->
         let q' := step q TimerFires in
         items (app q') = [] /\ selectedId (app q') = None
         /\ paperSize (app q') = paperSize (app q) /\ timers q' = rest)
  /\ (reachable p ->
      forall mid, forallb isEdit mid = true ->
      let p2 := run p1 (mid ++ [TimerFires]) in
      paperSize (app p2) = Some next
      /\ items (app p2) = [] /\ selectedId (app p2) = None)
  /\ (reachable p -> paperSize (app p) = None ->
      let p3 := step p (OverlaySelect next) in
      paperSize (app p3) = Some next
      /\ items (app p3) = [] /\ selectedId (app p3) = None).
Proof.
  cbv zeta. split; [repeat split; reflexivity|].
  split.
  { intros q rest H. simpl. rewrite H. repeat split; reflexivity. }
  split.
  - intros Hr mid Hmid. rewrite run_app.
    destruct (run_edits mid (step p (PaperSelect next)) Hmid) as [Hps Htm].
    set (q := run (step p (PaperSelect next)) mid) in *.
    destruct (reachable_invariant p Hr) as [_ Hall].
    assert (Hq : exists rest, timers q = deferredReset :: rest).
    { rewrite Htm. simpl. destruct Hall as [|t l Ht Hl]; simpl.
      - now exists [].
      - rewrite Ht. now exists (l ++ [deferredReset]). }
    destruct Hq as [rest Hq]. simpl. rewrite Hq.
    repeat split; try reflexivity.
    change (paperSize (app q) = Some next). rewrite Hps. reflexivity.
  - intros Hr Hnone. destruct (reachable_invariant p Hr) as [Hdoc _].
    destruct (Hdoc Hnone) as [Hi Hs]. simpl. rewrite Hnone. simpl.
    repeat split; assumption.
Qed.

End Lifecycle.

(* ================================================================= *)
(** ** The statements at concrete inputs *)

Section Instances.

(** A data item bound to the name column with brackets around the value:
    the gender condition wins with [Mr.]; with an empty [trueText] the
    bracketed name shows; without column and condition the fallback. *)
Lemma renderDataItem_precedence_witness :
  renderDataItem (dataItemOf "名前" "[" "]" "N/A" (genderCondition "Mr."))
  = "Mr."
  /\ renderDataItem
       (dataItemOf "名前" "[" "]" "N/A" (genderCondition EmptyString))
     = "[" ++ jsString (VString "山田 太郎") ++ "]"
  /\ renderDataItem (dataItemOf EmptyString "[" "]" "N/A" noCondition)
     = "N/A".
Proof.
  split; [|split].
  - apply (proj1 (renderDataItem_precedence
                    (dataItemOf "名前" "[" "]" "N/A"
                       (genderCondition "Mr.")))).
    + reflexivity.
    + discriminate.
  - apply (proj2 (proj1 (proj2 (renderDataItem_precedence
                    (dataItemOf "名前" "[" "]" "N/A"
                       (genderCondition EmptyString))))
                    (or_intror eq_refl))).
    + discriminate.
    + reflexivity.
    + discriminate.
  - apply (proj2 (proj2 (renderDataItem_precedence
                    (dataItemOf EmptyString "[" "]" "N/A" noCondition)))).
    + reflexivity.
    + reflexivity.
Defined.

(** The gender condition against the sample record. *)
Lemma evaluateCondition_result_witness :
  evaluateCondition
    (dataItemOf EmptyString EmptyString EmptyString "N/A"
       (genderCondition "Mr."))
  = Some "Mr.".
Proof.
  apply (proj1 (proj2 (evaluateCondition_result
                   (dataItemOf EmptyString EmptyString EmptyString "N/A"
                      (genderCondition "Mr.")))
                 eq_refl ltac:(discriminate))).
  reflexivity.
Defined.

Lemma resolvePlaceholderText_tokens_witness :
  resolvePlaceholderText ("Hello " ++ token "名前" ++ "!")
  = resolvePlaceholderText "Hello " ++ sourceText "名前"
      ++ resolvePlaceholderText "!"
  /\ resolvePlaceholderText ("Hello " ++ token "unknown" ++ "!")
     = resolvePlaceholderText "Hello " ++ token "unknown"
         ++ resolvePlaceholderText "!".
Proof.
  split.
  - apply (proj1 (resolvePlaceholderText_tokens "Hello " "名前" "!"
                    eq_refl ltac:(discriminate))).
    reflexivity.
  - apply (proj1 (proj2 (resolvePlaceholderText_tokens "Hello " "unknown"
                           "!" eq_refl ltac:(discriminate)))).
    reflexivity.
Defined.

Lemma placeholder_name_is_trimmed_witness :
  resolvePlaceholderText ("<" ++ token " 年齢 " ++ ">")
  = resolvePlaceholderText "<" ++ sourceText "年齢"
      ++ resolvePlaceholderText ">"
  /\ resolvePlaceholderText ("<" ++ token " age " ++ ">")
     = resolvePlaceholderText "<" ++ ("{" ++ " age " ++ "}")
         ++ resolvePlaceholderText ">".
Proof.
  split.
  - apply (proj1 (proj2 (placeholder_name_is_trimmed "<" " 年齢 " ">"
                           eq_refl ltac:(discriminate)))
             " " "年齢" " "); reflexivity.
  - apply (proj1 (proj2 (proj2 (placeholder_name_is_trimmed "<" " age " ">"
                                  eq_refl ltac:(discriminate))))).
    reflexivity.
Defined.

(** Moving the line of the sample document to x = 5: the stored line holds
    x = 5 and its width 160 as before; updating an id the document does not
    hold. *)
Lemma handleItemUpdate_merges_in_place_witness :
  nth_error (items (handleItemUpdate "l1" [F_x 5] sampleState)) 0
  = Some (if String.eqb (itemId (defaultItem line_t "l1")) "l1"
          then merge (defaultItem line_t "l1") [F_x 5]
          else defaultItem line_t "l1")
  /\ handleItemUpdate "zz" [F_x 5] sampleState = sampleState
  /\ (exists item',
        nth_error (items (handleItemUpdate "l1" [F_x 5] sampleState)) 0
        = Some item'
        /\ readField K_x item' = Some (F_x 5)
        /\ readField K_width item' = Some (F_width 160))
  /\ nth_error (items (handleItemUpdate "l1" [F_x 5] sampleState)) 1
     = Some (defaultItem text_t "t1").
Proof.
  split; [|split; [|split]].
  - apply (proj1 (proj2 (handleItemUpdate_merges_in_place
                           "l1" [F_x 5] sampleState))).
    reflexivity.
  - apply (proj1 (proj2 (proj2 (proj2 (proj2 (proj2
             (handleItemUpdate_merges_in_place "zz" [F_x 5]
                sampleState))))))).
    simpl. intros item [<-|[<-|[]]]; discriminate.
  - destruct (proj1 (proj2 (proj2 (proj2 (proj2 (proj2 (proj2
                (handleItemUpdate_merges_in_place "l1" [F_x 5]
                   sampleState)))))))
                0%nat (defaultItem line_t "l1") eq_refl eq_refl)
      as (item' & Hn & _ & _ & Hk).
    exists item'. split; [exact Hn|].
    split; [exact (Hk K_x) | exact (Hk K_width)].
  - apply (proj2 (proj2 (proj2 (proj2 (proj2 (proj2 (proj2
             (handleItemUpdate_merges_in_place "l1" [F_x 5]
                sampleState)))))))
             1%nat (defaultItem text_t "t1")).
    + reflexivity.
    + discriminate.
Defined.

(** Deleting the selected line of the sample document. *)
Lemma handleDelete_removes_and_unselects_witness :
  selectedId (handleDelete "l1" sampleState) = None
  /\ selectedId (handleDelete "t1" sampleState) = selectedId sampleState.
Proof.
  split.
  - apply (proj1 (proj2 (proj2 (proj2
             (handleDelete_removes_and_unselects "l1" sampleState))))).
    reflexivity.
  - apply (proj1 (proj2 (proj2 (proj2 (proj2
             (handleDelete_removes_and_unselects "t1" sampleState)))))).
    discriminate.
Defined.

(** From the initial page: choose A4 in the header select, add a line
    before the timer fires, let the timer fire. *)
Lemma paper_select_reset_follows_commit_witness :
  let p2 := run (step initialPage (PaperSelect A4))
                ([AddClick line_t "l1"] ++ [TimerFires])%list in
  paperSize (app p2) = Some A4
  /\ items (app p2) = [] /\ selectedId (app p2) = None.
Proof.
  apply (proj1 (proj2 (proj2
           (paper_select_reset_follows_commit initialPage A4)))
           reachable_initial [AddClick line_t "l1"]).
  reflexivity.
Defined.

End Instances.

(* ================================================================= *)
(** * Further properties of the handlers *)

(* ================================================================= *)
(** ** Item list: adding, updating, deleting, selecting *)

Section ItemList.

Local Open Scope list_scope.

Lemma find_append {A : Type} (f : A -> bool) (l1 l2 : list A) :
  find f (l1 ++ l2)
  = match find f l1 with
    | Some a => Some a
    | None => find f l2
    end.
Proof.
  induction l1 as [|a l1 IH]; simpl; [reflexivity|].
  destruct (f a); [reflexivity | exact IH].
Qed.

Lemma find_absent {A : Type} (f : A -> bool) (l : list A) :
  (forall a, In a l -> f a = false) -> find f l = None.
Proof.
  induction l as [|a l IH]; intros H; simpl; [reflexivity|].
  rewrite (H a (or_introl eq_refl)). apply IH.
  intros b Hb. apply H. now right.
Qed.

Lemma find_map_same {A : Type} (f : A -> bool) (g : A -> A) (l : list A) :
  (forall a, f (g a) = f a) ->
  find f (map g l) = option_map g (find f l).
Proof.
  intros H. induction l as [|a l IH]; simpl; [reflexivity|].
  rewrite H. destruct (f a); [reflexivity | exact IH].
Qed.

Lemma find_filter_weaker {A : Type} (f q : A -> bool) (l : list A) :
  (forall a, f a = true -> q a = true) ->
  find f (filter q l) = find f l.
Proof.
  intros H. induction l as [|a l IH]; simpl; [reflexivity|].
  destruct (q a) eqn:Q; simpl.
  - destruct (f a); [reflexivity | exact IH].
  - destruct (f a) eqn:F; [|exact IH].
    rewrite (H a F) in Q. discriminate.
Qed.

Lemma filter_keeps_all {A : Type} (f : A -> bool) (l : list A) :
  (forall a, In a l -> f a = true) -> filter f l = l.
Proof.
  induction l as [|a l IH]; intros H; simpl; [reflexivity|].
  rewrite (H a (or_introl eq_refl)). f_equal. apply IH.
  intros b Hb. apply H. now right.
Qed.

Lemma defaultItem_id (type : CanvasItemType) (newId : string) :
  itemId (defaultItem type newId) = newId.
Proof. destruct type; reflexivity. Qed.

(** X1.  [handleAddItem] does nothing while no paper size is chosen.  With a
    size it appends the new item behind the others and selects its id; the
    selection resolves to the new item when no older item carries the drawn
    id, and to the oldest item of that id otherwise. *)
Theorem handleAddItem_appends_and_selects
    (type : CanvasItemType) (newId : string) (s : AppState) :
  let s' := handleAddItem type newId s in
  (paperSize s = None -> s' = s)
  /\ (paperSize s <> None ->
      items s' = items s ++ [defaultItem type newId]
      /\ selectedId s' = Some newId
      /\ ((forall item, In item (items s) -> itemId item <> newId) ->
          selectedItem s' = Some (defaultItem type newId))
      /\ (forall old,
             find (fun item => String.eqb (itemId item) newId) (items s)
             = Some old ->
             selectedItem s' = Some old)).
Proof.
  cbv zeta. unfold handleAddItem. split.
  - intros ->. reflexivity.
  - intros H. destruct (paperSize s) as [k|]; [clear H | now elim H].
    split; [reflexivity|]. split; [reflexivity|].
    unfold selectedItem. simpl. rewrite find_append. split.
    + intros Hfresh. rewrite find_absent.
      * simpl. rewrite defaultItem_id, String.eqb_refl. reflexivity.
      * intros a Ha. apply String.eqb_neq. apply Hfresh, Ha.
    + intros old ->. reflexivity.
Qed.

(** X2.  Adding an item under a fresh id and deleting that id gives back the
    item list as it was, with nothing selected. *)
Theorem add_then_delete_restores
    (type : CanvasItemType) (newId : string) (s : AppState) :
  paperSize s <> None ->
  (forall item, In item (items s) -> itemId item <> newId) ->
  let s' := handleDelete newId (handleAddItem type newId s) in
  items s' = items s /\ selectedId s' = None.
Proof.
  intros Hp Hfresh. cbv zeta. unfold handleAddItem.
  destruct (paperSize s) as [k|]; [clear Hp | now elim Hp].
  unfold handleDelete, updSelectedId, setSelectedId, setItems. simpl.
  rewrite String.eqb_refl. split; [|reflexivity].
  rewrite filter_app. simpl.
  rewrite defaultItem_id, String.eqb_refl. simpl.
  rewrite app_nil_r. apply filter_keeps_all.
  intros a Ha. apply negb_true_iff, String.eqb_neq. apply Hfresh, Ha.
Qed.

Lemma updateItems_twice (id : string) (p1 p2 : Payload)
    (l : list CanvasItem) :
  updateItems id p2 (updateItems id p1 l) = updateItems id (p1 ++ p2) l.
Proof.
  unfold updateItems. rewrite map_map. apply map_ext. intros a.
  destruct (String.eqb (itemId a) id) eqn:E.
  - rewrite merge_id, E. symmetry. apply merge_app.
  - rewrite E. reflexivity.
Qed.

(** X3.  Two updates of one id in a row are one update with the second
    payload written behind the first. *)
Theorem handleItemUpdate_twice (id : string) (p1 p2 : Payload)
    (s : AppState) :
  handleItemUpdate id p2 (handleItemUpdate id p1 s)
  = handleItemUpdate id (p1 ++ p2) s.
Proof.
  unfold handleItemUpdate, setItems. simpl.
  rewrite updateItems_twice. reflexivity.
Qed.

(** X4.  Updates of two different ids can be done in either order. *)
Theorem handleItemUpdate_commutes (id1 id2 : string) (p1 p2 : Payload)
    (s : AppState) :
  id1 <> id2 ->
  handleItemUpdate id1 p1 (handleItemUpdate id2 p2 s)
  = handleItemUpdate id2 p2 (handleItemUpdate id1 p1 s).
Proof.
  intros Hne. unfold handleItemUpdate, setItems. simpl. f_equal.
  unfold updateItems. rewrite !map_map. apply map_ext. intros a.
  destruct (String.eqb (itemId a) id1) eqn:E1,
           (String.eqb (itemId a) id2) eqn:E2;
    rewrite ?merge_id, ?E1, ?E2; try reflexivity.
  apply String.eqb_eq in E1, E2. elim Hne. congruence.
Qed.

Lemma filter_commute {A : Type} (f g : A -> bool) (l : list A) :
  filter f (filter g l) = filter g (filter f l).
Proof.
  induction l as [|a l IH]; simpl; [reflexivity|].
  destruct (f a) eqn:F, (g a) eqn:G; simpl; rewrite ?F, ?G, IH; reflexivity.
Qed.

(** X5.  Deleting an id twice is deleting it once, and two deletions can be
    done in either order. *)
Theorem handleDelete_idempotent_commutes (a b : string) (s : AppState) :
  handleDelete a (handleDelete a s) = handleDelete a s
  /\ handleDelete a (handleDelete b s) = handleDelete b (handleDelete a s).
Proof.
  unfold handleDelete, updSelectedId, setItems. simpl. split.
  - f_equal.
    + apply filter_keeps_all. intros x Hx.
      apply filter_In in Hx. apply Hx.
    + destruct (selectedId s) as [p|]; [|reflexivity].
      destruct (String.eqb p a) eqn:E; [reflexivity | now rewrite E].
  - f_equal; [apply filter_commute|].
    destruct (selectedId s) as [p|]; [|reflexivity].
    destruct (String.eqb p a) eqn:Ea, (String.eqb p b) eqn:Eb;
      rewrite ?Ea, ?Eb; reflexivity.
Qed.

(** X6.  An update that names a deleted id changes nothing. *)
Theorem update_after_delete_is_noop (id : string) (payload : Payload)
    (s : AppState) :
  handleItemUpdate id payload (handleDelete id s) = handleDelete id s.
Proof.
  unfold handleItemUpdate, setItems, handleDelete, updSelectedId. simpl.
  f_equal. apply updateItems_absent.
  intros item Hin. apply filter_In in Hin. destruct Hin as [_ Hne].
  apply String.eqb_neq. now apply negb_true_iff.
Qed.

(** X7.  The selection follows an update: the selected item after
    [handleItemUpdate] is the selected item before it, merged with the
    payload when it carries the updated id. *)
Theorem selectedItem_after_update (id : string) (payload : Payload)
    (s : AppState) :
  selectedItem (handleItemUpdate id payload s)
  = option_map
      (fun item =>
         if String.eqb (itemId item) id then merge item payload else item)
      (selectedItem s).
Proof.
  unfold selectedItem, handleItemUpdate, setItems, updateItems. simpl.
  destruct (selectedId s) as [sid|]; [|reflexivity].
  apply find_map_same. intros a.
  destruct (String.eqb (itemId a) id); [now rewrite merge_id | reflexivity].
Qed.

(** X8.  Deleting an item other than the selected one leaves the selection
    and the item it resolves to as they are. *)
Theorem selectedItem_after_delete_other (id sid : string) (s : AppState) :
  selectedId s = Some sid -> sid <> id ->
  selectedId (handleDelete id s) = Some sid
  /\ selectedItem (handleDelete id s) = selectedItem s.
Proof.
  intros Hs Hne. unfold selectedItem, handleDelete, updSelectedId, setItems.
  simpl. rewrite Hs. rewrite (proj2 (String.eqb_neq _ _) Hne).
  split; [reflexivity|].
  apply find_filter_weaker. intros a Ha.
  apply String.eqb_eq in Ha. apply negb_true_iff, String.eqb_neq.
  congruence.
Qed.

End ItemList.

(* ================================================================= *)
(** ** The selection in the pages the application can be in *)

Section Selection.

Local Open Scope list_scope.

Lemma find_by_id (sid : string) (l : list CanvasItem) :
  (exists item, In item l /\ itemId item = sid) ->
  exists item,
    find (fun item => String.eqb (itemId item) sid) l = Some item
    /\ itemId item = sid.
Proof.
  intros (item & Hin & Hid).
  destruct (find (fun item => String.eqb (itemId item) sid) l) as [found|]
    eqn:E.
  - exists found. split; [reflexivity|].
    apply find_some in E. now apply String.eqb_eq.
  - exfalso. apply (find_none _ _ E) in Hin.
    rewrite Hid, String.eqb_refl in Hin. discriminate.
Qed.

Lemma selectedItem_id (s : AppState) (item : CanvasItem) :
  selectedItem s = Some item -> selectedId s = Some (itemId item).
Proof.
  unfold selectedItem. destruct (selectedId s) as [sid|]; [|discriminate].
  intros H. apply find_some in H. destruct H as [_ H].
  apply String.eqb_eq in H. now rewrite H.
Qed.

(** One step keeps the selection on an item of the list, provided every
    pending timer is a deferred reset. *)
Lemma step_selection (p : Page) (e : Event) :
  pageInvariant p ->
  (forall sid, selectedId (app p) = Some sid ->
               exists item, In item (items (app p)) /\ itemId item = sid) ->
  forall sid, selectedId (app (step p e)) = Some sid ->
              exists item,
                In item (items (app (step p e))) /\ itemId item = sid.
Proof.
  intros [_ Htm] Hsel sid. destruct e; simpl.
  - apply Hsel.
  - destruct (paperSize (app p)); apply Hsel.
  - apply Hsel.
  - destruct (workspaceShown (app p)); [|apply Hsel].
    unfold handleAddItem. destruct (paperSize (app p)); [|apply Hsel].
    simpl. intros H. injection H as <-.
    exists (defaultItem type newId). split.
    + apply in_or_app. right. now left.
    + apply defaultItem_id.
  - destruct (workspaceShown (app p)); [|apply Hsel].
    simpl. intros H. destruct (Hsel sid H) as (item & Hin & Hid).
    exists (if String.eqb (itemId item) id then merge item payload else item).
    split.
    + unfold updateItems.
      apply (in_map (fun it => if String.eqb (itemId it) id
                               then merge it payload else it)).
      exact Hin.
    + destruct (String.eqb (itemId item) id);
        [now rewrite merge_id | exact Hid].
  - destruct (workspaceShown (app p)); [|apply Hsel].
    destruct (selectedItem (app p)) as [sel|] eqn:E; [|apply Hsel].
    apply selectedItem_id in E. simpl. rewrite E, String.eqb_refl.
    discriminate.
  - destruct (workspaceShown (app p)); simpl; [|apply Hsel].
    destruct (existsb _ (items (app p))) eqn:E; [|apply Hsel].
    simpl. intros H. injection H as <-.
    apply existsb_exists in E. destruct E as (item & Hin & Hid).
    exists item. split; [exact Hin | now apply String.eqb_eq].
  - simpl. discriminate.
  - destruct (timers p) as [|task rest]; [apply Hsel|].
    inversion Htm as [|? ? Ht _]; subst. simpl. discriminate.
Qed.

(** X9.  In every page the application can be in, a selection names an item
    of the list: [selectedItem] resolves it to an item of that id. *)
Theorem reachable_selection_resolves (p : Page) :
  reachable p -> selectionResolves (app p).
Proof.
  intros Hr.
  assert (H : forall sid, selectedId (app p) = Some sid ->
                exists item, In item (items (app p)) /\ itemId item = sid).
  { induction Hr as [|p e Hr IH].
    - simpl. discriminate.
    - apply step_selection; [apply reachable_invariant, Hr | exact IH]. }
  intros sid Hs. unfold selectedItem. rewrite Hs.
  apply find_by_id. apply H, Hs.
Qed.

End Selection.

(* ================================================================= *)
(** ** Lines: how the editors compose *)

Section LineEditors.

Local Open Scope Q_scope.

(** X10.  A resize overwrites what an earlier resize stored: of two resizes
    in a row only the second shows. *)
Theorem applyResize_last_wins
    (item : LineItem.t) (w1 h1 x1 y1 w2 h2 x2 y2 : Q) :
  applyResize (applyResize item w1 h1 x1 y1) w2 h2 x2 y2
  = applyResize item w2 h2 x2 y2.
Proof.
  destruct item as [[i bx by_ bw bh] c th o]; destruct o; reflexivity.
Qed.

(** X11.  Of two thickness edits in a row only the second shows. *)
Theorem setThickness_last_wins (item : LineItem.t) (t1 t2 : Q) :
  setThickness (setThickness item t1) t2 = setThickness item t2.
Proof.
  destruct item as [[i bx by_ bw bh] c th o]; destruct o; reflexivity.
Qed.

(** X12.  The orientation select, whether or not the second [height] that
    follows the property list in the source is read as part of it: the
    result has the chosen orientation, its width is the old height when the
    orientation changes and the old width when it does not, its thickness is
    the old extent across the line clamped to [1], and id, position and
    colour are kept. *)
Theorem orientation_select_in_either_reading
    (item : LineItem.t) (o : Orientation) (remnant : bool) :
  let item' :=
    if remnant then mergeLine item (orientationPayloadWithRemnant item o)
    else setOrientation item o in
  LineItem.orientation item' = o
  /\ BaseItem.width (LineItem.base item')
     = match o, LineItem.orientation item with
       | horizontal, horizontal | vertical, vertical =>
           BaseItem.width (LineItem.base item)
       | _, _ => BaseItem.height (LineItem.base item)
       end
  /\ LineItem.thickness item' = Qmax (thicknessExtent item) 1
  /\ BaseItem.x (LineItem.base item') = BaseItem.x (LineItem.base item)
  /\ BaseItem.y (LineItem.base item') = BaseItem.y (LineItem.base item)
  /\ BaseItem.id (LineItem.base item') = BaseItem.id (LineItem.base item)
  /\ LineItem.color item' = LineItem.color item.
Proof.
  destruct item as [[i bx by_ bw bh] c th o0];
    destruct remnant, o0, o; repeat split; reflexivity.
Qed.

(** X14.  The generic height and width inputs of the property panel write
    the one extent and nothing else: on a horizontal line the height input
    leaves [thickness] behind, so the line invariant holds afterwards exactly
    when the typed height is the stored thickness; the width input keeps
    the invariant.  For a vertical line the roles are exchanged. *)
Theorem generic_size_inputs_on_line (item : LineItem.t) (v : Q) :
  LineItem.thickness (setHeight item v) = LineItem.thickness item
  /\ LineItem.thickness (setWidth item v) = LineItem.thickness item
  /\ BaseItem.height (LineItem.base (setHeight item v)) = v
  /\ BaseItem.width (LineItem.base (setWidth item v)) = v
  /\ match LineItem.orientation item with
     | horizontal =>
         (lineInvariant (setHeight item v) <-> v = LineItem.thickness item)
         /\ (lineInvariant (setWidth item v) <-> lineInvariant item)
     | vertical =>
         (lineInvariant (setWidth item v) <-> v = LineItem.thickness item)
         /\ (lineInvariant (setHeight item v) <-> lineInvariant item)
     end.
Proof.
  destruct item as [[i bx by_ bw bh] c th o]; destruct o; simpl;
    unfold lineInvariant; simpl; repeat split; auto.
Qed.

(** X25.  From a line that satisfies the invariant with thickness at least
    [1], thickness edits of at least [1] and orientation edits in any order
    keep both after every single edit. *)
Theorem edits_at_least_one_keep_line
    (es : list LineEdit) (item : LineItem.t) (n : nat) :
  wellFormedLine item -> Forall editAtLeastOne es ->
  wellFormedLine (applyEdits item (firstn n es)).
Proof.
  revert item n. induction es as [|e es IH]; intros item n Hwf Hes.
  - destruct n; exact Hwf.
  - destruct n as [|n]; [exact Hwf|].
    inversion Hes as [|? ? He Hes']; subst. simpl.
    apply IH; [apply applyEdit_wellFormed; assumption | exact Hes'].
Qed.

End LineEditors.

(* ================================================================= *)
(** ** Conditions and preview text: edges *)

Section BindingEdges.

Local Arguments getField : simpl never.

Lemma append_is_empty (a b : string) :
  a ++ b = EmptyString -> a = EmptyString /\ b = EmptyString.
Proof. destruct a; simpl; [auto | discriminate]. Qed.

(** X15.  [notEquals] is [equals] with the two result texts exchanged: the
    condition result and the preview text are the same. *)
Theorem notEquals_is_equals_swapped
    (b : BaseItem.t) (col : string) (fs : Q) (bo : bool) (al : Align.t)
    (pre suf ef : string) (en : bool) (ccol v tt ft : string) :
  let item op t f :=
    DataItem.mk b col fs bo al pre suf ef
      (ConditionSetting.mk en ccol op v t f) in
  evaluateCondition (item notEquals tt ft)
  = evaluateCondition (item equals ft tt)
  /\ renderPreviewText (item notEquals tt ft)
     = renderPreviewText (item equals ft tt).
Proof.
  cbv zeta.
  assert (E : evaluateCondition
                (DataItem.mk b col fs bo al pre suf ef
                   (ConditionSetting.mk en ccol notEquals v tt ft))
              = evaluateCondition
                  (DataItem.mk b col fs bo al pre suf ef
                     (ConditionSetting.mk en ccol equals v ft tt))).
  { unfold evaluateCondition. simpl.
    destruct (negb en || String.eqb ccol EmptyString); [reflexivity|].
    destruct (String.eqb _ v); reflexivity. }
  split; [exact E|].
  unfold renderPreviewText. rewrite E. reflexivity.
Qed.

(** X16.  An enabled [contains] condition on a set column yields [trueText]
    whenever the comparison value is empty, as it is on a fresh data box,
    and whenever it is the whole text of the column. *)
Theorem contains_matches_empty_and_whole (item : DataItem.t) :
  let c := DataItem.condition item in
  ConditionSetting.enabled c = true ->
  ConditionSetting.column c <> EmptyString ->
  ConditionSetting.operator c = contains ->
  ConditionSetting.value c = EmptyString
  \/ ConditionSetting.value c = sourceText (ConditionSetting.column c) ->
  evaluateCondition item = Some (ConditionSetting.trueText c).
Proof.
  cbv zeta. unfold evaluateCondition, sourceText.
  destruct (DataItem.condition item) as [en col op val tt ft]. simpl.
  intros -> Hcol -> Hval. simpl.
  rewrite (proj2 (String.eqb_neq _ _) Hcol).
  set (source := match getField DB_SAMPLE col with
                 | Some v => jsString v
                 | None => EmptyString
                 end) in *.
  assert (I : JsString.includes source val = true).
  { apply includes_iff. destruct Hval as [-> | ->].
    - exists EmptyString, source. reflexivity.
    - exists EmptyString, EmptyString. simpl.
      now rewrite append_empty_r. }
  now rewrite I.
Qed.

(** X17.  The preview text of a data box is empty only through an empty
    fallback: with a non-empty [emptyFallback] it is never empty. *)
Theorem renderPreviewText_nonempty (item : DataItem.t) :
  DataItem.emptyFallback item <> EmptyString ->
  renderPreviewText item <> EmptyString.
Proof.
  intros Hf. unfold renderPreviewText.
  assert (F : match
                (if String.eqb (DataItem.column item) EmptyString
                 then None
                 else getField DB_SAMPLE (DataItem.column item))
              with
              | None => DataItem.emptyFallback item
              | Some (VString EmptyString) => DataItem.emptyFallback item
              | Some v =>
                  DataItem.prefix item ++ jsString v ++ DataItem.suffix item
              end <> EmptyString).
  { destruct (if String.eqb (DataItem.column item) EmptyString
              then None
              else getField DB_SAMPLE (DataItem.column item)) as [v|];
      [|exact Hf].
    assert (N : jsString v <> EmptyString ->
                DataItem.prefix item ++ jsString v ++ DataItem.suffix item
                <> EmptyString).
    { intros Hv H. apply append_is_empty in H. destruct H as [_ H].
      apply append_is_empty in H. now destruct H. }
    destruct v as [[|a s]|z]; [exact Hf | apply N; discriminate|].
    apply N. intros H. apply jsString_empty in H. discriminate. }
  destruct (evaluateCondition item) as [[|c e]|];
    [exact F | discriminate | exact F].
Qed.

(** X18.  The condition checkbox changes [enabled] and nothing else of the
    data box: ticking it to the value it has leaves the box as it is, of two
    clicks the second shows, unticking silences the condition, and unticking
    and ticking again gives back the result of an enabled condition. *)
Theorem condition_checkbox_round_trip (item : DataItem.t) (b1 b2 : bool) :
  setConditionEnabled item
    (ConditionSetting.enabled (DataItem.condition item)) = item
  /\ setConditionEnabled (setConditionEnabled item b1) b2
     = setConditionEnabled item b2
  /\ evaluateCondition (setConditionEnabled item false) = None
  /\ (ConditionSetting.enabled (DataItem.condition item) = true ->
      evaluateCondition
        (setConditionEnabled (setConditionEnabled item false) true)
      = evaluateCondition item).
Proof.
  destruct item as [b col fs bo al pre suf ef [en ccol op v tt ft]].
  repeat split; try reflexivity.
  simpl. intros ->. reflexivity.
Qed.

End BindingEdges.

(* ================================================================= *)
(** ** Placeholder substitution: locality *)

Section PlaceholderLocality.

Local Arguments replacer : simpl never.
Local Arguments injectDbPlaceholders : simpl never.

Lemma spanKey_parts (s : string) :
  s = fst (spanKey s) ++ snd (spanKey s).
Proof.
  induction s as [|c s IH]; simpl; [reflexivity|].
  destruct (isBrace c); [reflexivity|].
  destruct (spanKey s) as [k r]. simpl in *. now rewrite <- IH.
Qed.

(** A match is a token at the start of the text. *)
Lemma matchToken_parts (s rawKey rest : string) :
  matchToken s = Some (rawKey, rest) ->
  s = String lbrace (rawKey ++ String rbrace rest).
Proof.
  destruct s as [|c s]; simpl; [discriminate|].
  destruct (Ascii.eqb_spec c lbrace) as [->|]; [|discriminate].
  pose proof (spanKey_parts s) as P.
  destruct (spanKey s) as [k r]. simpl in P.
  destruct k as [|a k]; [discriminate|].
  destruct r as [|d r]; [discriminate|].
  destruct (Ascii.eqb_spec d rbrace) as [->|]; [|discriminate].
  intros H. injection H as <- <-. now rewrite P.
Qed.

Lemma hasChar_app (c : ascii) (a b : string) :
  hasChar c (a ++ b) = hasChar c a || hasChar c b.
Proof.
  induction a as [|d a IH]; simpl; [reflexivity|].
  rewrite IH. apply orb_assoc.
Qed.

(** X19.  A text in which no opening brace occurs, or no closing brace, is
    returned as it is. *)
Theorem inject_needs_both_braces (s : string) :
  hasChar lbrace s = false \/ hasChar rbrace s = false ->
  injectDbPlaceholders s = s.
Proof.
  intros H.
  assert (N : forall t, hasChar lbrace t = false \/ hasChar rbrace t = false ->
                        matchToken t = None).
  { intros t Ht. destruct (matchToken t) as [[k r]|] eqn:E; [|reflexivity].
    apply matchToken_parts in E. subst t. exfalso.
    destruct Ht as [Ht|Ht].
    - simpl in Ht. discriminate.
    - simpl in Ht. rewrite hasChar_app in Ht. simpl in Ht.
      rewrite orb_true_r in Ht. discriminate. }
  induction s as [|c s IH]; rewrite inject_unfold, (N _ H); [reflexivity|].
  f_equal. apply IH. simpl in H.
  destruct H as [H|H]; apply orb_false_iff in H; destruct H as [_ H]; auto.
Qed.

(** X20.  No token reaches across an opening brace: the text before an
    opening brace is substituted independently of the text from it on. *)
Theorem inject_splits_at_open_brace (p q : string) :
  injectDbPlaceholders (p ++ String lbrace q)
  = injectDbPlaceholders p ++ injectDbPlaceholders (String lbrace q).
Proof. apply (inject_split_at_brace q (String.length p) p). apply le_n. Qed.

Lemma spanKey_through_rbrace (p q : string) :
  spanKey (p ++ String rbrace q)
  = (fst (spanKey (p ++ String rbrace EmptyString)),
     snd (spanKey (p ++ String rbrace EmptyString)) ++ q).
Proof.
  induction p as [|c p IH]; simpl; [reflexivity|].
  destruct (isBrace c); [simpl; now rewrite append_assoc|].
  rewrite IH. destruct (spanKey (p ++ String rbrace EmptyString)).
  reflexivity.
Qed.

Lemma spanKey_stops_at_rbrace (p : string) :
  snd (spanKey (p ++ String rbrace EmptyString)) <> EmptyString.
Proof.
  induction p as [|c p IH]; simpl; [discriminate|].
  destruct (isBrace c); [discriminate|].
  destruct (spanKey (p ++ String rbrace EmptyString)). exact IH.
Qed.

Lemma matchToken_through_rbrace (p q : string) :
  p <> EmptyString ->
  matchToken (p ++ String rbrace q)
  = match matchToken (p ++ String rbrace EmptyString) with
    | Some (rawKey, rest) => Some (rawKey, rest ++ q)
    | None => None
    end.
Proof.
  intros Hp. destruct p as [|c p]; [contradiction|]. simpl.
  destruct (Ascii.eqb c lbrace); [|reflexivity].
  rewrite spanKey_through_rbrace.
  pose proof (spanKey_stops_at_rbrace p) as R.
  destruct (spanKey (p ++ String rbrace EmptyString)) as [k r]. simpl in *.
  destruct k as [|a k]; [reflexivity|].
  destruct r as [|d r]; [contradiction|]. simpl.
  destruct (Ascii.eqb d rbrace); reflexivity.
Qed.

(** What is left behind a prefix of a text that ends with [c] is empty or
    ends with [c] itself. *)
Lemma suffix_of_ended (c : ascii) (x a r : string) :
  a ++ String c EmptyString = x ++ r ->
  r = EmptyString
  \/ exists r0, r = r0 ++ String c EmptyString
                /\ (String.length r0 + String.length x
                    = String.length a)%nat.
Proof.
  revert a. induction x as [|d x IH]; intros a H; simpl in H.
  - right. exists a. split; [now rewrite H | simpl; lia].
  - destruct a as [|e a]; simpl in H.
    + injection H as _ H. symmetry in H. apply append_is_empty in H.
      left. apply H.
    + injection H as _ H. destruct (IH a H) as [E|(r0 & E & L)].
      * now left.
      * right. exists r0. split; [exact E | simpl; lia].
Qed.

Lemma inject_split_after_rbrace (q : string) (n : nat) (p : string) :
  (String.length p <= n)%nat ->
  injectDbPlaceholders (p ++ String rbrace q)
  = injectDbPlaceholders (p ++ String rbrace EmptyString)
      ++ injectDbPlaceholders q.
Proof.
  revert p. induction n as [|n IH]; intros p Hn.
  - destruct p; [|simpl in Hn; lia].
    cbn [append]. rewrite (inject_unfold (String rbrace q)). reflexivity.
  - destruct p as [|c p].
    { cbn [append]. rewrite (inject_unfold (String rbrace q)).
      reflexivity. }
    rewrite (inject_unfold (String c p ++ String rbrace q)).
    rewrite (inject_unfold (String c p ++ String rbrace EmptyString)).
    rewrite matchToken_through_rbrace by discriminate.
    destruct (matchToken (String c p ++ String rbrace EmptyString))
      as [[k r]|] eqn:E.
    + apply matchToken_parts in E.
      assert (E' : String c p ++ String rbrace EmptyString
                   = String lbrace (k ++ String rbrace EmptyString) ++ r).
      { rewrite E. simpl. now rewrite append_assoc. }
      destruct (suffix_of_ended _ _ _ _ E') as [->|(r0 & -> & L)].
      * simpl. rewrite (inject_unfold EmptyString). simpl.
        now rewrite append_empty_r.
      * rewrite append_assoc. simpl. simpl in L, Hn.
        rewrite IH by lia. now rewrite append_assoc.
    + simpl. simpl in Hn. rewrite IH by lia. reflexivity.
Qed.

(** X21.  No token reaches across a closing brace: the text behind a
    closing brace is substituted independently of the text up to it. *)
Theorem inject_splits_after_close_brace (p q : string) :
  injectDbPlaceholders (p ++ String rbrace q)
  = injectDbPlaceholders (p ++ String rbrace EmptyString)
      ++ injectDbPlaceholders q.
Proof. apply (inject_split_after_rbrace q (String.length p) p). apply le_n. Qed.

Lemma keys_iff_field (record : DbRecord) (key : string) :
  existsb (String.eqb key) (map fst record) = true
  <-> exists v, getField record key = Some v.
Proof.
  induction record as [|[k v] record IH]; simpl.
  - split; [discriminate | intros [v H]; discriminate].
  - rewrite (String.eqb_sym key k).
    destruct (String.eqb k key); simpl.
    + split; [intros _; now exists v | reflexivity].
    + exact IH.
Qed.

(** X22.  [isDbColumn] accepts a name exactly when the record has a field of
    that name, so the replacer never takes its empty-text branch for a name
    it accepts: the token is replaced by the text of the field. *)
Theorem isDbColumn_iff_field (key : string) :
  (isDbColumn key = true <-> exists v, getField DB_SAMPLE key = Some v)
  /\ (forall rawKey,
         isDbColumn (JsString.trim rawKey) = true ->
         exists v, getField DB_SAMPLE (JsString.trim rawKey) = Some v
                   /\ replacer rawKey = jsString v).
Proof.
  split; [apply keys_iff_field|].
  intros rawKey H. pose proof H as H'.
  apply keys_iff_field in H'. destruct H' as [v Hv].
  exists v. split; [exact Hv|].
  unfold replacer. rewrite H, Hv. reflexivity.
Qed.

End PlaceholderLocality.

(* ================================================================= *)
(** ** Panning the canvas *)

Section Pan.

(** The sum and the difference of JS numbers, left unspecified. *)
Variables add sub : Q -> Q -> Q.

(** While a pan gesture is on, pointer moves write [pan] and nothing else:
    the gesture stays on and its start stays recorded. *)
Lemma moves_while_panning (ps : list (Q * Q)) (c : Canvas) :
  isPanning (cstate c) = true ->
  let c' := pointerRun add sub c (movesOf ps) in
  isPanning (cstate c') = true
  /\ panStartRef c' = panStartRef c
  /\ items (cstate c') = items (cstate c)
  /\ selectedId (cstate c') = selectedId (cstate c)
  /\ zoom (cstate c') = zoom (cstate c).
Proof.
  revert c. induction ps as [|[px py] ps IH]; intros c Hc; simpl.
  - repeat split; assumption || reflexivity.
  - rewrite Hc.
    destruct (IH (handleMouseMove add sub px py c) Hc)
      as (H1 & H2 & H3 & H4 & H5).
    repeat split; assumption.
Qed.

(** Without a pan gesture pointer moves change nothing. *)
Lemma moves_while_idle (ps : list (Q * Q)) (c : Canvas) :
  isPanning (cstate c) = false -> pointerRun add sub c (movesOf ps) = c.
Proof.
  induction ps as [|[px py] ps IH]; intros Hc; simpl.
  - reflexivity.
  - rewrite Hc. apply IH, Hc.
Qed.

(** X23.  A pan gesture: after a press of the main button on the canvas
    surface at [(x0, y0)] and any pointer moves that end at [(x, y)], [pan]
    is what the last move computes from the press alone, the pan at the
    press plus the difference of the two positions in the arithmetic of JS
    numbers, however the pointer got there; items, selection and zoom are
    untouched. *)
Theorem drag_pans_by_displacement
    (c : Canvas) (x0 y0 : Q) (ps : list (Q * Q)) (x y : Q) :
  workspaceShown (cstate c) = true ->
  let c' := pointerRun add sub c
              (MouseDown 0 true x0 y0 :: movesOf ps ++ [MouseMove x y]) in
  pan (cstate c')
  = (add (fst (pan (cstate c))) (sub x x0),
     add (snd (pan (cstate c))) (sub y y0))
  /\ items (cstate c') = items (cstate c)
  /\ selectedId (cstate c') = selectedId (cstate c)
  /\ zoom (cstate c') = zoom (cstate c)
  /\ isPanning (cstate c') = true.
Proof.
  intros W. cbv zeta. unfold pointerRun. simpl. rewrite W.
  unfold handleCanvasMouseDown. simpl.
  rewrite fold_left_app.
  set (c1 := mkCanvas (setIsPanning true (cstate c))
               (mkPanStart x0 y0 (fst (pan (cstate c)))
                  (snd (pan (cstate c))))).
  destruct (moves_while_panning ps c1 eq_refl) as (H1 & H2 & H3 & H4 & H5).
  unfold pointerRun in *. simpl. rewrite H1. unfold handleMouseMove.
  rewrite H2. simpl.
  split; [reflexivity|]. split; [exact H3|]. split; [exact H4|].
  split; [exact H5 | exact H1].
Qed.

(** X24.  Once the button is released, and also once the document is reset
    in the middle of a gesture, pointer moves no longer change anything. *)
Theorem moves_after_release_are_ignored (c : Canvas) (ps : list (Q * Q)) :
  pointerRun add sub (pointerStep add sub c MouseUp) (movesOf ps)
  = pointerStep add sub c MouseUp
  /\ pointerRun add sub
       (mkCanvas (resetDocument (cstate c)) (panStartRef c)) (movesOf ps)
     = mkCanvas (resetDocument (cstate c)) (panStartRef c)
  /\ pointerRun add sub
       (mkCanvas (deferredReset (cstate c)) (panStartRef c)) (movesOf ps)
     = mkCanvas (deferredReset (cstate c)) (panStartRef c).
Proof.
  split; [|split].
  - apply moves_while_idle. simpl.
    destruct (isPanning (cstate c)) eqn:E; [reflexivity | exact E].
  - apply moves_while_idle. reflexivity.
  - apply moves_while_idle. reflexivity.
Qed.

End Pan.

(* ================================================================= *)
(** ** The further properties at concrete inputs *)

Section FurtherInstances.

Lemma handleAddItem_appends_and_selects_witness :
  selectedItem (handleAddItem rectangle_t "n1" sampleState)
  = Some (defaultItem rectangle_t "n1")
  /\ selectedItem (handleAddItem rectangle_t "l1" sampleState)
     = Some (defaultItem line_t "l1").
Proof.
  split.
  - apply (proj1 (proj2 (proj2
             (proj2 (handleAddItem_appends_and_selects rectangle_t "n1"
                       sampleState)
                ltac:(simpl; discriminate))))).
    simpl. intros item [<-|[<-|[]]]; discriminate.
  - apply (proj2 (proj2 (proj2
             (proj2 (handleAddItem_appends_and_selects rectangle_t "l1"
                       sampleState)
                ltac:(simpl; discriminate))))).
    reflexivity.
Defined.

Lemma add_then_delete_restores_witness :
  items (handleDelete "n1" (handleAddItem rectangle_t "n1" sampleState))
  = items sampleState
  /\ selectedId
       (handleDelete "n1" (handleAddItem rectangle_t "n1" sampleState))
     = None.
Proof.
  apply (add_then_delete_restores rectangle_t "n1" sampleState).
  - discriminate.
  - simpl. intros item [<-|[<-|[]]]; discriminate.
Defined.

Lemma handleItemUpdate_commutes_witness :
  handleItemUpdate "l1" [F_x 5] (handleItemUpdate "t1" [F_y 7] sampleState)
  = handleItemUpdate "t1" [F_y 7] (handleItemUpdate "l1" [F_x 5] sampleState).
Proof.
  apply (handleItemUpdate_commutes "l1" "t1" [F_x 5] [F_y 7] sampleState).
  discriminate.
Defined.

Lemma selectedItem_after_delete_other_witness :
  selectedId (handleDelete "t1" sampleState) = Some "l1"
  /\ selectedItem (handleDelete "t1" sampleState) = selectedItem sampleState.
Proof.
  apply (selectedItem_after_delete_other "t1" "l1" sampleState).
  - reflexivity.
  - discriminate.
Defined.

Lemma reachable_selection_resolves_witness :
  selectionResolves
    (app (step (step initialPage (OverlaySelect A4)) (AddClick line_t "l1"))).
Proof.
  apply (reachable_selection_resolves
           (step (step initialPage (OverlaySelect A4))
              (AddClick line_t "l1"))).
  apply reachable_step. apply reachable_step. apply reachable_initial.
Defined.

Lemma contains_matches_empty_and_whole_witness :
  evaluateCondition
    (dataItemOf EmptyString EmptyString EmptyString "N/A"
       (ConditionSetting.mk true "住所" contains EmptyString "yes" "no"))
  = Some "yes".
Proof.
  apply (contains_matches_empty_and_whole
           (dataItemOf EmptyString EmptyString EmptyString "N/A"
              (ConditionSetting.mk true "住所" contains EmptyString
                 "yes" "no"))).
  - reflexivity.
  - discriminate.
  - reflexivity.
  - left. reflexivity.
Defined.

Lemma renderPreviewText_nonempty_witness :
  renderPreviewText (dataItemOf "年齢" EmptyString EmptyString "N/A" noCondition)
  <> EmptyString.
Proof.
  apply (renderPreviewText_nonempty
           (dataItemOf "年齢" EmptyString EmptyString "N/A" noCondition)).
  discriminate.
Defined.

Lemma inject_needs_both_braces_witness :
  injectDbPlaceholders "名前} and {年齢" = "名前} and {年齢"
  \/ injectDbPlaceholders "no braces" = "no braces".
Proof.
  right. apply (inject_needs_both_braces "no braces"). left. reflexivity.
Defined.

(** A drag on the sample canvas, with the exact sum and difference standing
    for the arithmetic. *)
Lemma drag_pans_by_displacement_witness :
  pan (cstate (pointerRun Qplus Qminus sampleCanvas
                 (MouseDown 0 true 10 10
                  :: movesOf [(50, 3)%Q] ++ [MouseMove 25 40])))
  = (Qplus (fst (pan (cstate sampleCanvas))) (Qminus 25 10),
     Qplus (snd (pan (cstate sampleCanvas))) (Qminus 40 10)).
Proof.
  apply (drag_pans_by_displacement Qplus Qminus sampleCanvas 10 10
           [(50, 3)%Q] 25 40).
  reflexivity.
Defined.

(** A fresh line turned vertical and then set to thickness 3. *)
Lemma edits_at_least_one_keep_line_witness :
  wellFormedLine
    (applyEdits (lineOf 160 2 2 horizontal)
       (firstn 2 [EditOrientation vertical; EditThickness 3])).
Proof.
  apply (edits_at_least_one_keep_line
           [EditOrientation vertical; EditThickness 3]
           (lineOf 160 2 2 horizontal) 2).
  - split; [reflexivity | vm_compute; discriminate].
  - repeat constructor. vm_compute. discriminate.
Defined.

End FurtherInstances.
